(** * Struts migration utility: a shallow embedding of [struts_migration.py]

    The development follows the Python module function by function.
    Pure helpers ([parse_size], path arithmetic, the batching loop) are
    total Rocq functions returning a [result]; code that touches the
    file tree, the logger or the worker pool threads an explicit [World]
    through a small exception monad, so that a raised exception carries
    the state in which it was raised.

    Library calls the module relies on ([pathlib], [shutil], [glob]) are
    not part of the module.  The file-tree operations are modelled after
    their documented behaviour on a finite map from absolute paths to
    nodes; glob expansion and [Path.match] are parameters of the
    file processor, and a small wildcard matcher instantiates them for
    the concrete scenarios.  What [_load_config] reads is an input: a
    mapping from section names to YAML values. *)

From Stdlib Require Import ZArith Lia List Ascii String Sorted.
From stdpp Require Import base option list strings gmap sorting.

Local Open Scope string_scope.
Local Open Scope list_scope.
Local Open Scope Z_scope.

(** ** Python exceptions *)

Module Py.

(** The subclasses of [Exception] that the module and the modelled
    library calls can raise.  [RuntimeError] stands for whatever a
    per-file transformer raises. *)
Inductive exn : Type :=
  | ValueError (msg : string)
  | KeyError (key : string)
  | TypeError (msg : string)
  | NameError (name : string)
  | AttributeError (msg : string)
  | NotImplementedError (msg : string)
  | FileNotFoundError (path : string)
  | FileExistsError (path : string)
  | NotADirectoryError (path : string)
  | IsADirectoryError (path : string)
  | RuntimeError (msg : string).

#[global] Instance exn_eq_dec : EqDecision exn.
Proof. solve_decision. Defined.

(** [str(e)] *)
Definition str (e : exn) : string :=
  match e with
  | ValueError m | TypeError m | AttributeError m
  | NotImplementedError m | RuntimeError m => m
  | KeyError k => "'" +:+ k +:+ "'"
  | NameError n => "name '" +:+ n +:+ "' is not defined"
  | FileNotFoundError p => "[Errno 2] No such file or directory: '" +:+ p +:+ "'"
  | FileExistsError p => "[Errno 17] File exists: '" +:+ p +:+ "'"
  | NotADirectoryError p => "[Errno 20] Not a directory: '" +:+ p +:+ "'"
  | IsADirectoryError p => "[Errno 21] Is a directory: '" +:+ p +:+ "'"
  end.

(** Outcome of a pure computation that may raise. *)
Inductive result (A : Type) : Type :=
  | Val (a : A)
  | Err (e : exn).
Arguments Val {A} a.
Arguments Err {A} e.

Definition rbind {A B} (r : result A) (k : A -> result B) : result B :=
  match r with
  | Val a => k a
  | Err e => Err e
  end.

End Py.
Import Py.

Notation "x <-? r ; k" := (rbind r (fun x => k))
  (at level 100, r at next level, right associativity, only parsing).

(** ** Characters and strings *)

Module Str.

Definition code (c : ascii) : N := N_of_ascii c.

(** [str.isdigit], [str.isalpha] and [str.upper] on the ASCII range; a
    byte above 127 is neither a digit nor a letter here. *)
Definition isdigit (c : ascii) : bool :=
  ((48 <=? code c) && (code c <=? 57))%N.

Definition isupper (c : ascii) : bool :=
  ((65 <=? code c) && (code c <=? 90))%N.

Definition islower (c : ascii) : bool :=
  ((97 <=? code c) && (code c <=? 122))%N.

Definition isalpha (c : ascii) : bool := isupper c || islower c.

Definition upper_char (c : ascii) : ascii :=
  if islower c then ascii_of_N (code c - 32) else c.

Fixpoint upper (s : string) : string :=
  match s with
  | EmptyString => EmptyString
  | String c r => String (upper_char c) (upper r)
  end.

(** [''.join(filter(p, s))] *)
Fixpoint filter (p : ascii -> bool) (s : string) : string :=
  match s with
  | EmptyString => EmptyString
  | String c r => if p c then String c (filter p r) else filter p r
  end.

Fixpoint all (p : ascii -> bool) (s : string) : bool :=
  match s with
  | EmptyString => true
  | String c r => p c && all p r
  end.

Definition digit_value (c : ascii) : Z := Z.of_N (code c) - 48.

Fixpoint decimal_from (acc : Z) (s : string) : Z :=
  match s with
  | EmptyString => acc
  | String c r => decimal_from (10 * acc + digit_value c) r
  end.

Definition decimal (s : string) : Z := decimal_from 0 s.

(** The longest digit string [int] converts (the interpreter's default
    [int_max_str_digits]). *)
Definition max_str_digits : nat := 4300.

(** [int(s)] for a string made of decimal digits only, which is all
    [parse_size] ever passes. *)
Definition int (s : string) : result Z :=
  match s with
  | EmptyString => Err (ValueError "invalid literal for int() with base 10: ''")
  | _ =>
      if (max_str_digits <? String.length s)%nat
      then Err (ValueError "Exceeds the limit (4300 digits) for integer string conversion")
      else Val (decimal s)
  end.

End Str.

(** ** [parse_size] *)

Definition units : gmap string Z :=
  <["B" := 1]> (<["KB" := 1024]> (<["MB" := 1024 * 1024]>
    (<["GB" := 1024 * 1024 * 1024]> ∅))).

(** [units[unit]] *)
Definition units_getitem (unit : string) : result Z :=
  match units !! unit with
  | Some v => Val v
  | None => Err (KeyError unit)
  end.

Definition size_number (size_str : string) : string :=
  Str.filter Str.isdigit size_str.

Definition size_unit (size_str : string) : string :=
  Str.filter Str.isalpha (Str.upper size_str).

Definition parse_size (size_str : string) : result Z :=
  number <-? Str.int (size_number size_str);
  let unit := size_unit size_str in
  factor <-? units_getitem unit;
  Val (number * factor).

(** ** Paths

    A [pathlib.Path] is its anchor (absolute or not) and its list of
    components.  Components [..] are kept as they are, as [pathlib]
    does; the file tree below does not interpret them. *)

Module Path.

Record t : Type := mk { absolute : bool; parts : list string }.

#[global] Instance t_eq_dec : EqDecision t.
Proof. solve_decision. Defined.

Definition slash : ascii := "/"%char.
Definition dot : ascii := "."%char.

(** [s.split('/')] *)
Fixpoint split_slash (s : string) : list string :=
  match s with
  | EmptyString => [EmptyString]
  | String c r =>
      if Ascii.eqb c slash then EmptyString :: split_slash r
      else match split_slash r with
           | h :: t => String c h :: t
           | [] => [String c EmptyString]
           end
  end.

Definition starts_with_slash (s : string) : bool :=
  match s with
  | String c _ => Ascii.eqb c slash
  | EmptyString => false
  end.

Fixpoint ends_with_slash (s : string) : bool :=
  match s with
  | EmptyString => false
  | String c EmptyString => Ascii.eqb c slash
  | String _ r => ends_with_slash r
  end.

Definition keep_part (c : string) : bool :=
  negb (String.eqb c "") && negb (String.eqb c ".").

(** [Path(s)]: empty and [.] components are dropped. *)
Definition of_string (s : string) : t :=
  {| absolute := starts_with_slash s;
     parts := List.filter keep_part (split_slash s) |}.

Fixpoint join_parts (l : list string) : string :=
  match l with
  | [] => ""
  | [c] => c
  | c :: r => c +:+ "/" +:+ join_parts r
  end.

(** [str(p)] *)
Definition to_string (p : t) : string :=
  match parts p with
  | [] => if absolute p then "/" else "."
  | l => (if absolute p then "/" else "") +:+ join_parts l
  end.

(** [p / s]: an absolute right operand replaces the left one. *)
Definition truediv (p : t) (s : string) : t :=
  let q := of_string s in
  if absolute q then q
  else {| absolute := absolute p; parts := parts p ++ parts q |}.

(** [os.path.join(a, b)] on strings *)
Definition os_path_join (a b : string) : string :=
  if starts_with_slash b then b
  else if String.eqb a "" || ends_with_slash a then a +:+ b
  else a +:+ "/" +:+ b.

(** [p.name] *)
Definition name (p : t) : string := List.last (parts p) "".

(** Splits a name at its last dot into the text before it and the text
    from the dot on. *)
Fixpoint rsplit_dot (s : string) : option (string * string) :=
  match s with
  | EmptyString => None
  | String c r =>
      match rsplit_dot r with
      | Some (a, b) => Some (String c a, b)
      | None => if Ascii.eqb c dot then Some (EmptyString, s) else None
      end
  end.

(** [p.suffix]: with [i = name.rfind('.')], the text from [i] on when
    [0 < i < len(name) - 1], and the empty string otherwise. *)
Definition suffix (p : t) : string :=
  match rsplit_dot (name p) with
  | Some (stem, ext) =>
      if negb (String.eqb stem "") && (1 <? String.length ext)%nat
      then ext else ""
  | None => ""
  end.

(** The order [sorted()] puts paths in: component by component, the
    anchor first. *)
Fixpoint parts_leb (a b : list string) : bool :=
  match a, b with
  | [], _ => true
  | _ :: _, [] => false
  | x :: a', y :: b' =>
      if String.eqb x y then parts_leb a' b' else String.ltb x y
  end.

Definition cparts (p : t) : list string :=
  (if absolute p then ["/"] else []) ++ parts p.

Definition leb (p q : t) : bool := parts_leb (cparts p) (cparts q).

End Path.

Definition path_le (p q : Path.t) : Prop := Path.leb p q = true.

#[global] Instance path_le_dec : RelDecision path_le.
Proof. intros p q. unfold path_le. apply _. Defined.

Definition path_sorted (l : list Path.t) : Prop := Sorted path_le l.

Infix "//" := Path.truediv (at level 40, left associativity).

(** ** The file tree *)

Module FS.

Inductive node : Type :=
  | Dir
  | File (content : string).

#[global] Instance node_eq_dec : EqDecision node.
Proof. solve_decision. Defined.

(** Entries are keyed by their absolute component list; the root is
    the empty list and always a directory. *)
Abbreviation t := (gmap (list string) node).

Definition lookup_node (fs : t) (p : list string) : option node :=
  match p with
  | [] => Some Dir
  | _ => fs !! p
  end.

Definition exists_ (fs : t) (p : list string) : bool :=
  match lookup_node fs p with Some _ => true | None => false end.

Definition render (p : list string) : string :=
  Path.to_string (Path.mk true p).

(** [os.makedirs(p, exist_ok=True)], which is what
    [Path.mkdir(parents=True, exist_ok=True)] amounts to: every missing
    ancestor is created; a regular file on the way is an error. *)
Fixpoint makedirs_from (fs : t) (done todo : list string) : result t :=
  match todo with
  | [] => Val fs
  | c :: r =>
      let p := done ++ [c] in
      match lookup_node fs p with
      | Some Dir => makedirs_from fs p r
      | Some (File _) =>
          Err (match r with
               | [] => FileExistsError (render p)
               | _ => NotADirectoryError (render (p ++ r))
               end)
      | None => makedirs_from (<[p := Dir]> fs) p r
      end
  end.

Definition makedirs (fs : t) (p : list string) : result t :=
  makedirs_from fs [] p.

Definition under (p : list string) (kv : list string * node) : Prop :=
  p `prefix_of` kv.1.

#[global] Instance under_dec p kv : Decision (under p kv).
Proof. unfold under. apply _. Defined.

Definition outside (p : list string) (kv : list string * node) : Prop :=
  ¬ under p kv.

#[global] Instance outside_dec p kv : Decision (outside p kv).
Proof. unfold outside. apply _. Defined.

(** [shutil.rmtree(p)] *)
Definition rmtree (fs : t) (p : list string) : result t :=
  match lookup_node fs p with
  | None => Err (FileNotFoundError (render p))
  | Some (File _) => Err (NotADirectoryError (render p))
  | Some Dir => Val (filter (outside p) fs)
  end.

(** The entries below [src], re-rooted at [dst]. *)
Definition reroot (src dst : list string) (fs : t) : t :=
  list_to_map
    (omap (fun kv : list string * node =>
             if decide (src `prefix_of` kv.1)
             then Some (dst ++ drop (length src) kv.1, kv.2)
             else None)
          (map_to_list fs)).

(** [shutil.copytree(src, dst)]: [dst] must not exist; its missing
    ancestors are created.  Copying a tree into itself never ends in
    the library; the model reports it as an error and leaves the tree
    alone. *)
Definition copytree (fs : t) (src dst : list string) : result t :=
  match lookup_node fs src with
  | None => Err (FileNotFoundError (render src))
  | Some (File _) => Err (NotADirectoryError (render src))
  | Some Dir =>
      if exists_ fs dst then Err (FileExistsError (render dst))
      else if decide (src `prefix_of` dst)
      then Err (RuntimeError "maximum recursion depth exceeded")
      else
        fs1 <-? makedirs fs dst;
        Val (reroot src dst fs ∪ fs1)
  end.

(** Every entry lies in a directory. *)
Definition wf (fs : t) : Prop :=
  forall p c n, fs !! (p ++ [c]) = Some n -> lookup_node fs p = Some Dir.

(** [open(p, 'w')] followed by writing [content] and closing. *)
Definition write_file (fs : t) (p : list string) (content : string) : result t :=
  match lookup_node fs p with
  | Some Dir => Err (IsADirectoryError (render p))
  | _ =>
      match lookup_node fs (removelast p) with
      | Some Dir => Val (<[p := File content]> fs)
      | Some (File _) => Err (NotADirectoryError (render p))
      | None => Err (FileNotFoundError (render p))
      end
  end.

End FS.

(** ** Configuration values

    What [yaml.safe_load] returns, without floats and with mappings
    keyed by strings. *)

Module Yaml.

#[warnings="-register-all"]
Inductive t : Type :=
  | Null
  | Bool (b : bool)
  | Int (z : Z)
  | Str (s : string)
  | Seq (l : list t)
  | Map (m : gmap string t).

Definition type_name (v : t) : string :=
  match v with
  | Null => "NoneType"
  | Bool _ => "bool"
  | Int _ => "int"
  | Str _ => "str"
  | Seq _ => "list"
  | Map _ => "dict"
  end.

(** [d[k]] for a string key [k] *)
Definition getitem (d : t) (k : string) : result t :=
  match d with
  | Map m =>
      match m !! k with
      | Some v => Val v
      | None => Err (KeyError k)
      end
  | Seq _ => Err (TypeError "list indices must be integers or slices, not str")
  | Str _ => Err (TypeError "string indices must be integers, not 'str'")
  | _ => Err (TypeError ("'" +:+ type_name d +:+ "' object is not subscriptable"))
  end.

(** Truth value of [v] in an [if]. *)
Definition truthy (v : t) : bool :=
  match v with
  | Null => false
  | Bool b => b
  | Int z => negb (Z.eqb z 0)
  | Str s => negb (String.eqb s "")
  | Seq l => match l with [] => false | _ => true end
  | Map m => negb (bool_decide (m = ∅))
  end.

Fixpoint chars (s : string) : list t :=
  match s with
  | EmptyString => []
  | String c r => Str (String c EmptyString) :: chars r
  end.

(** The items a [for] loop over [v] visits.  A string yields its
    characters and a mapping its keys (here in the order of
    [map_to_list], the insertion order not being modelled). *)
Definition iterate (v : t) : result (list t) :=
  match v with
  | Seq l => Val l
  | Str s => Val (chars s)
  | Map m => Val (Str <$> (map_to_list m).*1)
  | _ => Err (TypeError ("'" +:+ type_name v +:+ "' object is not iterable"))
  end.

(** An integer argument ([bool] is a subclass of [int]). *)
Definition as_int (v : t) : result Z :=
  match v with
  | Int z => Val z
  | Bool b => Val (if b then 1 else 0)
  | _ => Err (TypeError ("'" +:+ type_name v +:+
                         "' object cannot be interpreted as an integer"))
  end.

Definition as_str (what : string) (v : t) : result string :=
  match v with
  | Str s => Val s
  | _ => Err (TypeError (what +:+ ", not " +:+ type_name v))
  end.

Definition is_str (v : t) : bool :=
  match v with Str _ => true | _ => false end.

End Yaml.

(** ** The world the program runs in *)

Record World : Type := mkWorld {
  fs : FS.t;                       (* the file tree *)
  cwd : list string;               (* the working directory *)
  log : list (string * string);    (* calls on the logger: level, message *)
  submitted : list Path.t;         (* files handed to the pool, in order *)
  stdout : list string;            (* lines printed *)
  now_isoformat : string;          (* datetime.now().isoformat() *)
  now_strftime : string            (* datetime.now().strftime('%Y%m%d_%H%M%S') *)
}.

Definition set_fs (f : FS.t) (w : World) : World :=
  mkWorld f (cwd w) (log w) (submitted w) (stdout w)
          (now_isoformat w) (now_strftime w).

Definition add_log (level msg : string) (w : World) : World :=
  mkWorld (fs w) (cwd w) (log w ++ [(level, msg)]) (submitted w) (stdout w)
          (now_isoformat w) (now_strftime w).

Definition add_submitted (p : Path.t) (w : World) : World :=
  mkWorld (fs w) (cwd w) (log w) (submitted w ++ [p]) (stdout w)
          (now_isoformat w) (now_strftime w).

Definition add_stdout (line : string) (w : World) : World :=
  mkWorld (fs w) (cwd w) (log w) (submitted w) (stdout w ++ [line])
          (now_isoformat w) (now_strftime w).

(** Where a path points in the tree. *)
Definition resolve (w : World) (p : Path.t) : list string :=
  if Path.absolute p then Path.parts p else cwd w ++ Path.parts p.

(** *** The exception monad over worlds *)

Inductive outcome (A : Type) : Type :=
  | Return (a : A) (w : World)
  | Raise (e : exn) (w : World).
Arguments Return {A} a w.
Arguments Raise {A} e w.

Definition M (A : Type) : Type := World -> outcome A.

Definition ret {A} (a : A) : M A := fun w => Return a w.

Definition raise {A} (e : exn) : M A := fun w => Raise e w.

Definition bind {A B} (m : M A) (k : A -> M B) : M B :=
  fun w =>
    match m w with
    | Return a w' => k a w'
    | Raise e w' => Raise e w'
    end.

Notation "x <- m ;; k" := (bind m (fun x => k))
  (at level 100, m at next level, right associativity, only parsing).
Notation "m ;;; k" := (bind m (fun _ => k))
  (at level 100, right associativity, only parsing).

(** [try: body except Exception as e: handler(e)] *)
Definition try_except {A} (body : M A) (handler : exn -> M A) : M A :=
  fun w =>
    match body w with
    | Return a w' => Return a w'
    | Raise e w' => handler e w'
    end.

Definition lift {A} (r : result A) : M A :=
  fun w =>
    match r with
    | Val a => Return a w
    | Err e => Raise e w
    end.

(** A file-tree operation on the resolved path(s). *)
Definition fs_op (op : FS.t -> result FS.t) : M unit :=
  fun w =>
    match op (fs w) with
    | Val f => Return tt (set_fs f w)
    | Err e => Raise e w
    end.

Definition path_exists (p : Path.t) : M bool :=
  fun w => Return (FS.exists_ (fs w) (resolve w p)) w.

Definition logger_error (msg : string) : M unit :=
  fun w => Return tt (add_log "ERROR" msg w).

Definition logger_info (msg : string) : M unit :=
  fun w => Return tt (add_log "INFO" msg w).

Fixpoint mapM {A B} (f : A -> M B) (l : list A) : M (list B) :=
  match l with
  | [] => ret []
  | x :: r => y <- f x ;; ys <- mapM f r ;; ret (y :: ys)
  end.

Fixpoint forM_ {A} (l : list A) (f : A -> M unit) : M unit :=
  match l with
  | [] => ret tt
  | x :: r => f x ;;; forM_ r f
  end.

Definition world_of {A} (o : outcome A) : World :=
  match o with Return _ w | Raise _ w => w end.

(** ** [MigrationContext]

    The [logger] field of the dataclass is the [log] of the world. *)

Record MigrationContext : Type := mkContext {
  config : gmap string Yaml.t;
  base_dir : Path.t;
  backup_dir : Path.t
}.

(** [self.context.config[section][key]] *)
Definition config_get (ctx : MigrationContext) (section key : string) : result Yaml.t :=
  sec <-? Yaml.getitem (Yaml.Map (config ctx)) section;
  Yaml.getitem sec key.

(** ** [ConfigurationManager] *)

Definition required_sections : list string :=
  ["paths"; "files"; "patterns"; "migration"; "logging"].

Fixpoint check_sections (cfg : gmap string Yaml.t) (sections : list string) : result unit :=
  match sections with
  | [] => Val tt
  | section :: rest =>
      match cfg !! section with
      | None => Err (ValueError ("Missing required configuration section: " +:+ section))
      | Some _ => check_sections cfg rest
      end
  end.

Definition _validate_config (cfg : gmap string Yaml.t) : result unit :=
  check_sections cfg required_sections.

(** [ConfigurationManager.__init__], given what [_load_config] read. *)
Definition ConfigurationManager_init (loaded : gmap string Yaml.t)
  : result (gmap string Yaml.t) :=
  _ <-? _validate_config loaded;
  Val loaded.

Definition joinable (kv : string * Yaml.t) : bool :=
  String.eqb kv.1 "base_dir" || Yaml.is_str kv.2.

Definition update_entry (base_dir : string) (key : string) (path : Yaml.t) : option Yaml.t :=
  Some (if String.eqb key "base_dir" then path
        else match path with
             | Yaml.Str s => Yaml.Str (Path.os_path_join base_dir s)
             | _ => path
             end).

(** [update_paths]: the [paths] section after the loop.  A value that
    is not a string makes [os.path.join] raise. *)
Definition update_paths (cfg : gmap string Yaml.t) (base_dir : string)
  : result (gmap string Yaml.t) :=
  match cfg !! "paths" with
  | None => Err (KeyError "paths")
  | Some (Yaml.Map paths) =>
      let paths1 := <["base_dir" := Yaml.Str base_dir]> paths in
      if forallb joinable (map_to_list paths1)
      then Val (<["paths" := Yaml.Map (map_imap (update_entry base_dir) paths1)]> cfg)
      else Err (TypeError "expected str, bytes or os.PathLike object")
  | Some (Yaml.Seq _) =>
      Err (TypeError "list indices must be integers or slices, not str")
  | Some v =>
      Err (TypeError ("'" +:+ Yaml.type_name v +:+
                      "' object does not support item assignment"))
  end.

(** ** [LoggingManager] *)

Definition level_names : list string :=
  ["CRITICAL"; "FATAL"; "ERROR"; "WARN"; "WARNING"; "INFO"; "DEBUG"; "NOTSET"].

(** [setup_logging] as far as it can fail on the configuration: the
    lookups, the level name and the size string.  A level is one of the
    level names of [logging]; other attributes of that module are not
    modelled.  The handlers themselves are the [log] of the world, and
    the log file is not an entry of the file tree. *)
Definition setup_logging (cfg : gmap string Yaml.t) : result unit :=
  log_config <-? Yaml.getitem (Yaml.Map cfg) "logging";
  _ <-? Yaml.getitem log_config "file";
  level <-? Yaml.getitem log_config "level";
  level <-? Yaml.as_str "attribute name must be string" level;
  if negb (bool_decide (level ∈ level_names))
  then Err (AttributeError ("module 'logging' has no attribute '" +:+ level +:+ "'"))
  else
    max_size <-? Yaml.getitem log_config "max_size";
    max_size <-? Yaml.as_str "argument must be a string" max_size;
    _ <-? parse_size max_size;
    _ <-? Yaml.getitem log_config "backup_count";
    _ <-? Yaml.getitem log_config "format";
    Val tt.

(** ** [PathManager] *)

Definition files_entry (ctx : MigrationContext) (key : string) : result Path.t :=
  v <-? config_get ctx "files" key;
  s <-? Yaml.as_str "expected str, bytes or os.PathLike object" v;
  Val (base_dir ctx // s).

(** [validate_paths]: the list of required paths is built first, then
    each is checked in turn.  The statements are taken in their textual
    order, whatever the indentation of the docstring. *)
Definition validate_paths (ctx : MigrationContext) : M unit :=
  pom <- lift (files_entry ctx "pom") ;;
  struts_config <- lift (files_entry ctx "struts_config") ;;
  let required_paths := [base_dir ctx; pom; struts_config] in
  forM_ required_paths (fun path =>
    ex <- path_exists path ;;
    if negb ex
    then raise (ValueError ("Required path does not exist: " +:+ Path.to_string path))
    else ret tt).

Definition create_backup_directory (ctx : MigrationContext) : M unit :=
  enabled <- lift (config_get ctx "migration" "backup_enabled") ;;
  if Yaml.truthy enabled
  then fun w => fs_op (fun f => FS.makedirs f (resolve w (backup_dir ctx))) w
  else ret tt.

(** ** Batching helpers *)

(** The values [range(start, stop, step)] yields for a non-zero step:
    [i] runs from [start] by [step] while it has not reached [stop]. *)
Fixpoint range_from (fuel : nat) (i stop step : Z) : list Z :=
  match fuel with
  | O => []
  | S fuel' =>
      if (if 0 <? step then i <? stop else stop <? i)
      then i :: range_from fuel' (i + step) stop step
      else []
  end.

(** [range(start, stop, step)] *)
Definition range (start stop step : Z) : result (list Z) :=
  if Z.eqb step 0 then Err (ValueError "range() arg 3 must not be zero")
  else Val (range_from (Z.to_nat (Z.abs (stop - start))) start stop step).

(** [l[i:j]] for indices that are not negative. *)
Definition slice {A} (l : list A) (i j : Z) : list A :=
  take (Z.to_nat j - Z.to_nat i)%nat (drop (Z.to_nat i) l).

(** The batches the loop of [process_files] visits, in order. *)
Definition batches {A} (files_to_process : list A) (batch_size : Z)
  : result (list (list A)) :=
  starts <-? range 0 (Z.of_nat (length files_to_process)) batch_size;
  Val ((fun i => slice files_to_process i (i + batch_size)) <$> starts).

(** [ThreadPoolExecutor(max_workers=v)]: only its argument check. *)
Definition ThreadPoolExecutor (max_workers : Yaml.t) : result unit :=
  match max_workers with
  | Yaml.Null => Val tt
  | Yaml.Int _ | Yaml.Bool _ =>
      n <-? Yaml.as_int max_workers;
      if n <=? 0 then Err (ValueError "max_workers must be greater than 0")
      else Val tt
  | _ => Err (TypeError ("'<=' not supported between instances of '" +:+
                         Yaml.type_name max_workers +:+ "' and 'int'"))
  end.

(** ** [RunReport] as [_generate_report] builds it *)

Record Report : Type := mkReport {
  timestamp : string;
  project : Yaml.t;
  status : string;
  files_processed : Z;
  errors : list string
}.

(** ** [FileProcessor] and [MigrationManager]

    The collaborators of the engine are parameters: glob expansion
    under a directory, [Path.match], and the three per-kind transformers
    whose bodies the module leaves out.  A transformer works on the file
    tree and may raise. *)

Section Engine.

Variable glob : FS.t -> list string -> Path.t -> string -> result (list Path.t).
Variable path_match : Path.t -> string -> result bool.
Variable _process_java_file : list string -> Path.t -> FS.t -> FS.t * option exn.
Variable _process_xml_file : list string -> Path.t -> FS.t -> FS.t * option exn.
Variable _process_jsp_file : list string -> Path.t -> FS.t -> FS.t * option exn.

Definition pattern_str (pattern : Yaml.t) : result string :=
  Yaml.as_str "expected str, bytes or os.PathLike object" pattern.

(** The first loop of [_gather_files]. *)
Fixpoint extend_all (w : World) (base : Path.t) (patterns : list Yaml.t)
    (files : list Path.t) : result (list Path.t) :=
  match patterns with
  | [] => Val files
  | pattern :: rest =>
      pat <-? pattern_str pattern;
      found <-? glob (fs w) (cwd w) base pat;
      extend_all w base rest (files ++ found)
  end.

(** [[f for f in files if not f.match(pattern)]] *)
Fixpoint filter_not_match (pattern : Yaml.t) (files : list Path.t)
  : result (list Path.t) :=
  match files with
  | [] => Val []
  | f :: rest =>
      pat <-? pattern_str pattern;
      m <-? path_match f pat;
      kept <-? filter_not_match pattern rest;
      Val (if m then kept else f :: kept)
  end.

(** The second loop of [_gather_files]. *)
Fixpoint exclude_all (patterns : list Yaml.t) (files : list Path.t)
  : result (list Path.t) :=
  match patterns with
  | [] => Val files
  | pattern :: rest =>
      files' <-? filter_not_match pattern files;
      exclude_all rest files'
  end.

Definition gather (w : World) (base : Path.t)
    (include_patterns exclude_patterns : Yaml.t) : result (list Path.t) :=
  inc <-? Yaml.iterate include_patterns;
  files <-? extend_all w base inc [];
  exc <-? Yaml.iterate exclude_patterns;
  exclude_all exc files.

Definition _gather_files (ctx : MigrationContext)
    (include_patterns exclude_patterns : Yaml.t) : M (list Path.t) :=
  fun w => lift (gather w (base_dir ctx) include_patterns exclude_patterns) w.

Definition run_transformer
    (transform : list string -> Path.t -> FS.t -> FS.t * option exn)
    (file_path : Path.t) : M unit :=
  fun w =>
    let '(f, r) := transform (cwd w) file_path (fs w) in
    match r with
    | None => Return tt (set_fs f w)
    | Some e => Raise e (set_fs f w)
    end.

Definition _process_file (ctx : MigrationContext) (file_path : Path.t) : M unit :=
  try_except
    (if String.eqb (Path.suffix file_path) ".java"
     then run_transformer _process_java_file file_path
     else if String.eqb (Path.suffix file_path) ".xml"
     then run_transformer _process_xml_file file_path
     else if String.eqb (Path.suffix file_path) ".jsp"
     then run_transformer _process_jsp_file file_path
     else ret tt)
    (fun e =>
       logger_error ("Error processing " +:+ Path.to_string file_path +:+ ": " +:+ str e) ;;;
       raise e).

(** [executor.submit(self._process_file, file)]: the task runs and the
    future keeps what it raised, if anything.  Tasks are run here in
    submission order, one schedule among those the pool allows. *)
Definition submit (ctx : MigrationContext) (file : Path.t) : M (option exn) :=
  fun w =>
    match _process_file ctx file (add_submitted file w) with
    | Return _ w' => Return None w'
    | Raise e w' => Return (Some e) w'
    end.

(** [future.result()] inside its [try] *)
Definition collect (future : option exn) : M unit :=
  match future with
  | None => ret tt
  | Some e => logger_error ("Error processing file: " +:+ str e)
  end.

Definition run_batch (ctx : MigrationContext) (batch : list Path.t) : M unit :=
  futures <- mapM (submit ctx) batch ;;
  forM_ futures collect.

Definition process_files (ctx : MigrationContext) : M unit :=
  patterns <- lift (Yaml.getitem (Yaml.Map (config ctx)) "patterns") ;;
  inc <- lift (Yaml.getitem patterns "include") ;;
  exc <- lift (Yaml.getitem patterns "exclude") ;;
  files_to_process <- _gather_files ctx inc exc ;;
  batch_size <- lift (config_get ctx "migration" "batch_size") ;;
  num_threads <- lift (config_get ctx "migration" "parallel_threads") ;;
  lift (ThreadPoolExecutor num_threads) ;;;
  step <- lift (Yaml.as_int batch_size) ;;
  bs <- lift (batches files_to_process step) ;;
  forM_ bs (run_batch ctx).

(** The dictionary [_generate_report] builds. *)
Definition build_report (ctx : MigrationContext) (w : World) : result Report :=
  proj <-? Yaml.getitem (Yaml.Map (config ctx)) "project";
  Val {| timestamp := now_isoformat w;
         project := proj;
         status := "completed";
         files_processed := 0;
         errors := [] |}.

Definition report_file (ctx : MigrationContext) (w : World) : Path.t :=
  base_dir ctx // ("migration_report_" +:+ now_strftime w +:+ ".json").

(** [_generate_report]: the report file is opened for writing, which
    creates or empties it, and [json.dump] is then called.  The module
    never imports [json], so the call raises [NameError] and the file
    stays empty. *)
Definition _generate_report (ctx : MigrationContext) : M unit :=
  fun w =>
    (report <- lift (build_report ctx w) ;;
     fs_op (fun f => FS.write_file f (resolve w (report_file ctx w)) "") ;;;
     raise (NameError "json")) w.

Definition _rollback (ctx : MigrationContext) : M unit :=
  ex <- path_exists (backup_dir ctx) ;;
  if ex then
    (fun w => fs_op (fun f => FS.rmtree f (resolve w (base_dir ctx))) w) ;;;
    (fun w => fs_op (fun f => FS.copytree f (resolve w (backup_dir ctx))
                                            (resolve w (base_dir ctx))) w) ;;;
    logger_info "Rollback completed"
  else ret tt.

(** The body of the [try] in [execute_migration]. *)
Definition migration_steps (ctx : MigrationContext) : M unit :=
  validate_paths ctx ;;;
  enabled <- lift (config_get ctx "migration" "backup_enabled") ;;
  (if Yaml.truthy enabled then create_backup_directory ctx else ret tt) ;;;
  process_files ctx ;;;
  _generate_report ctx.

(** The [except Exception as e] clause of [execute_migration]. *)
Definition on_failure (ctx : MigrationContext) (e : exn) : M unit :=
  logger_error ("Migration failed: " +:+ str e) ;;;
  enabled <- lift (config_get ctx "migration" "rollback_enabled") ;;
  (if Yaml.truthy enabled then _rollback ctx else ret tt) ;;;
  raise e.

Definition execute_migration (ctx : MigrationContext) : M unit :=
  try_except (migration_steps ctx) (on_failure ctx).

(** [MigrationManager.__init__], given what [_load_config] read. *)
Definition MigrationManager_init (loaded : gmap string Yaml.t) (base : string)
  : result MigrationContext :=
  cfg <-? ConfigurationManager_init loaded;
  cfg <-? update_paths cfg base;
  _ <-? setup_logging cfg;
  paths <-? Yaml.getitem (Yaml.Map cfg) "paths";
  bd <-? Yaml.getitem paths "backup_dir";
  bd <-? Yaml.as_str "expected str, bytes or os.PathLike object" bd;
  Val {| config := cfg;
         base_dir := Path.of_string base;
         backup_dir := Path.of_string base // bd |}.

(** [main], given what loading the configuration file produced and the
    project directory; the result is the exit status. *)
Definition main (loaded : result (gmap string Yaml.t)) (project_dir : string)
  : World -> Z * World :=
  fun w =>
    match loaded with
    | Err e => (1, add_stdout ("Error loading configuration: " +:+ str e) w)
    | Val cfg =>
        match MigrationManager_init cfg project_dir with
        | Err e => (1, add_stdout ("Migration failed: " +:+ str e) w)
        | Val ctx =>
            match execute_migration ctx w with
            | Return _ w' => (0, w')
            | Raise e w' => (1, add_stdout ("Migration failed: " +:+ str e) w')
            end
        end
    end.

(** [file_path] fails with [e] wherever it is processed. *)
Definition always_raises (ctx : MigrationContext) (file_path : Path.t) (e : exn) : Prop :=
  forall w, exists w', _process_file ctx file_path w = Raise e w'.

(** Discovery in world [w] finds [files]. *)
Definition discovers (ctx : MigrationContext) (w : World) (files : list Path.t) : Prop :=
  exists patterns inc exc,
    Yaml.getitem (Yaml.Map (config ctx)) "patterns" = Val patterns /\
    Yaml.getitem patterns "include" = Val inc /\
    Yaml.getitem patterns "exclude" = Val exc /\
    gather w (base_dir ctx) inc exc = Val files.

End Engine.

(** The configured batch size and pool size. *)
Definition batch_settings (ctx : MigrationContext) (batch_size threads : Z) : Prop :=
  config_get ctx "migration" "batch_size" = Val (Yaml.Int batch_size) /\
  config_get ctx "migration" "parallel_threads" = Val (Yaml.Int threads).

(** [f] matches none of the exclusion patterns, [matches] telling which
    pattern matches which path. *)
Definition not_excluded (matches : Path.t -> string -> bool) (exc : list string)
    (f : Path.t) : bool :=
  forallb (fun p => negb (matches f p)) exc.

(** [n / b] rounded up, for a positive [b]. *)
Definition ceil_div (n b : Z) : Z := (n + b - 1) / b.

(** The record [_process_file] logs for a failure. *)
Definition file_error (file_path : Path.t) (e : exn) : string * string :=
  ("ERROR", "Error processing " +:+ Path.to_string file_path +:+ ": " +:+ str e).

(** The record the dispatcher logs for a failed future. *)
Definition future_error (e : exn) : string * string :=
  ("ERROR", "Error processing file: " +:+ str e).

(** ** A wildcard matcher for the collaborators

    Enough of [pathlib]'s globbing to run the engine on concrete trees:
    [*] and [?] inside a component, [**] for any number of directories.
    Character classes are not interpreted. *)

Module Glob.

Definition star : ascii := "*"%char.
Definition qmark : ascii := "?"%char.

(** [fnmatch.fnmatchcase(name, pat)] *)
Fixpoint fnmatch (pat name : string) {struct pat} : bool :=
  match pat with
  | EmptyString => String.eqb name ""
  | String c pat' =>
      if Ascii.eqb c star then
        (fix skip (n : string) : bool :=
           fnmatch pat' n ||
           match n with
           | EmptyString => false
           | String _ n' => skip n'
           end) name
      else
        match name with
        | EmptyString => false
        | String d name' =>
            (Ascii.eqb c qmark || Ascii.eqb c d) && fnmatch pat' name'
        end
  end.

(** Pattern components against the components of a path relative to
    the directory globbed. *)
Fixpoint match_parts (pats rel : list string) {struct pats} : bool :=
  match pats with
  | [] => match rel with [] => true | _ => false end
  | p :: pats' =>
      if String.eqb p "**" then
        (fix descend (r : list string) : bool :=
           match_parts pats' r ||
           match r with
           | [] => false
           | _ :: r' => descend r'
           end) rel
      else
        match rel with
        | [] => false
        | c :: rel' => fnmatch p c && match_parts pats' rel'
        end
  end.

Definition is_dir (n : FS.node) : bool :=
  match n with FS.Dir => true | FS.File _ => false end.

Definition selects (root pats : list string) (kv : list string * FS.node) : bool :=
  bool_decide (root `prefix_of` kv.1) &&
  match_parts pats (drop (length root) kv.1) &&
  (negb (String.eqb (List.last pats "") "**") || is_dir kv.2).

(** [base.glob(pattern)]; the order is that of the tree's listing. *)
Definition glob (f : FS.t) (cwd : list string) (base : Path.t) (pattern : string)
  : result (list Path.t) :=
  let pat := Path.of_string pattern in
  if Path.absolute pat
  then Err (NotImplementedError "Non-relative patterns are unsupported")
  else match Path.parts pat with
       | [] => Err (ValueError ("Unacceptable pattern: '" +:+ pattern +:+ "'"))
       | pats =>
           let root := if Path.absolute base then Path.parts base
                       else cwd ++ Path.parts base in
           Val ((fun kv : list string * FS.node =>
                   Path.mk (Path.absolute base)
                           (Path.parts base ++ drop (length root) kv.1))
                <$> List.filter (selects root pats) (map_to_list f))
       end.

Fixpoint match_right (pats parts : list string) : bool :=
  match pats, parts with
  | [], _ => true
  | _ :: _, [] => false
  | p :: pats', c :: parts' => fnmatch p c && match_right pats' parts'
  end.

(** [PurePath.match(pattern)]: a relative pattern is matched from the
    right against the components of the path, anchor included; an
    absolute one against the whole path. *)
Definition path_match (p : Path.t) (pattern : string) : result bool :=
  let pat := Path.of_string pattern in
  match Path.parts pat with
  | [] => if Path.absolute pat
          then Val (Path.absolute p && bool_decide (Path.parts p = []))
          else Err (ValueError "empty pattern")
  | pats =>
      if Path.absolute pat
      then Val (Path.absolute p &&
                (length pats =? length (Path.parts p))%nat &&
                match_right (rev pats) (rev (Path.parts p)))
      else Val (match_right (rev pats) (rev (Path.cparts p)))
  end.

(** The transformer bodies as the module has them: [pass]. *)
Definition pass (cwd : list string) (file_path : Path.t) (f : FS.t)
  : FS.t * option exn := (f, None).

End Glob.

(** ** Concrete projects

    A small project tree and its configuration, used to run the engine
    on explicit inputs. *)

Module Scenario.

Definition ymap (l : list (string * Yaml.t)) : Yaml.t := Yaml.Map (list_to_map l).

Definition strs (l : list string) : Yaml.t := Yaml.Seq (Yaml.Str <$> l).

(** A complete configuration; the arguments are the entries the
    scenarios vary. *)
Definition configuration (backup_path : string) (include_patterns : list string)
    (batch_size : Z) (backup_enabled rollback_enabled : bool)
  : gmap string Yaml.t :=
  list_to_map
    [("project", Yaml.Str "demo");
     ("paths", ymap [("backup_dir", Yaml.Str backup_path)]);
     ("files", ymap [("pom", Yaml.Str "pom.xml");
                     ("struts_config", Yaml.Str "struts-config.xml")]);
     ("patterns", ymap [("include", strs include_patterns);
                        ("exclude", strs [])]);
     ("migration", ymap [("batch_size", Yaml.Int batch_size);
                         ("parallel_threads", Yaml.Int 2);
                         ("backup_enabled", Yaml.Bool backup_enabled);
                         ("rollback_enabled", Yaml.Bool rollback_enabled)]);
     ("logging", ymap [("file", Yaml.Str "migration.log");
                       ("level", Yaml.Str "INFO");
                       ("max_size", Yaml.Str "10MB");
                       ("backup_count", Yaml.Int 5);
                       ("format", Yaml.Str "%(message)s")])].

(** The same document without its [logging] section. *)
Definition configuration_without_logging : gmap string Yaml.t :=
  delete "logging" (configuration "backup" ["*.java"] 3 true true).

(** Seven files under [/proj]: four [.java], two [.xml], one [.txt]. *)
Definition tree : FS.t :=
  list_to_map
    [(["proj"], FS.Dir);
     (["proj"; "pom.xml"], FS.File "<project/>");
     (["proj"; "struts-config.xml"], FS.File "<struts-config/>");
     (["proj"; "A.java"], FS.File "class A {}");
     (["proj"; "B.java"], FS.File "class B {}");
     (["proj"; "C.java"], FS.File "class C {}");
     (["proj"; "D.java"], FS.File "class D {}");
     (["proj"; "notes.txt"], FS.File "todo")].

(** The tree without its project descriptor. *)
Definition tree_without_pom : FS.t := delete ["proj"; "pom.xml"] tree.

(** A project with two files only. *)
Definition two_files : FS.t :=
  list_to_map
    [(["proj"], FS.Dir);
     (["proj"; "pom.xml"], FS.File "<project/>");
     (["proj"; "A.java"], FS.File "class A {}")].

Definition proj : Path.t := Path.of_string "/proj".

(** What discovery finds in [tree] for the patterns [*.java], [*.xml]
    and [*.txt], in the order it finds them. *)
Definition discovered : list Path.t :=
  [proj // "D.java"; proj // "C.java"; proj // "B.java"; proj // "A.java";
   proj // "pom.xml"; proj // "struts-config.xml"; proj // "notes.txt"].

(** [tree] with a copy of itself already stored under [/proj/backup]. *)
Definition tree_with_inner_snapshot : FS.t :=
  FS.reroot ["proj"] ["proj"; "backup"] tree ∪ tree.

(** [tree] with a copy of itself stored under [/backups/proj]. *)
Definition tree_with_outer_snapshot : FS.t :=
  FS.reroot ["proj"] ["backups"; "proj"] tree ∪ <[ ["backups"] := FS.Dir ]> tree.

(** What the collaborators of the wildcard matcher answer, made total. *)
Definition expansion (f : FS.t) (base : Path.t) (pattern : string) : list Path.t :=
  match Glob.glob f [] base pattern with
  | Val l => l
  | Err _ => []
  end.

Definition matches (file_path : Path.t) (pattern : string) : bool :=
  match Glob.path_match file_path pattern with
  | Val b => b
  | Err _ => false
  end.

Definition world (f : FS.t) : World :=
  mkWorld f [] [] [] [] "2024-01-01T00:00:00" "20240101_000000".

(** A transformer that fails on the file called [name]. *)
Definition fail_on (name : string) (cwd : list string) (file_path : Path.t)
    (f : FS.t) : FS.t * option exn :=
  if String.eqb (Path.name file_path) name
  then (f, Some (RuntimeError "cannot transform"))
  else (f, None).

Definition context (cfg : gmap string Yaml.t) : MigrationContext :=
  match MigrationManager_init cfg "/proj" with
  | Val ctx => ctx
  | Err _ => mkContext cfg (Path.of_string "/proj") (Path.of_string "/proj")
  end.

End Scenario.

(** ** Further notions the properties are stated with *)



(** The [paths] section of a configuration, when it is a mapping. *)
Definition paths_of (cfg : gmap string Yaml.t) : option (gmap string Yaml.t) :=
  match cfg !! "paths" with
  | Some (Yaml.Map m) => Some m
  | _ => None
  end.

(** Every entry of [m] but [base_dir] is a string. *)
Definition string_paths (m : gmap string Yaml.t) : Prop :=
  forall k v, m !! k = Some v -> k <> "base_dir" -> exists s, v = Yaml.Str s.

(** More documents to run the constructors on. *)
Module Documents.

(** A document that lacks both [files] and [logging]. *)
Definition without_files_and_logging : gmap string Yaml.t :=
  delete "files" Scenario.configuration_without_logging.

(** A [paths] section with a second entry and an absolute one. *)
Definition three_paths : gmap string Yaml.t :=
  list_to_map [("backup_dir", Yaml.Str "backup");
               ("reports", Yaml.Str "out/reports");
               ("archive", Yaml.Str "/var/archive")].

(** A complete document with that section. *)
Definition with_paths : gmap string Yaml.t :=
  <["paths" := Yaml.Map three_paths]>
    (Scenario.configuration "backup" ["*.java"] 3 true true).

(** A [paths] section with an entry that is not a string. *)
Definition numeric_path : gmap string Yaml.t :=
  list_to_map [("backup_dir", Yaml.Int 7)].

(** A complete document whose [paths] section has no [backup_dir]. *)
Definition without_backup_dir : gmap string Yaml.t :=
  <["paths" := Scenario.ymap [("reports", Yaml.Str "out/reports")]]>
    (Scenario.configuration "backup" ["*.java"] 3 false false).

(** A complete document with a path that is not a string. *)
Definition with_numeric_path : gmap string Yaml.t :=
  <["paths" := Yaml.Map numeric_path]>
    (Scenario.configuration "backup" ["*.java"] 3 true true).

(** The [logging] section of the scenarios, with the given size text. *)
Definition logging_section (max_size : string) : gmap string Yaml.t :=
  list_to_map [("file", Yaml.Str "migration.log");
               ("level", Yaml.Str "INFO");
               ("max_size", Yaml.Str max_size);
               ("backup_count", Yaml.Int 5);
               ("format", Yaml.Str "%(message)s")].

(** The [paths] section of the scenarios. *)
Definition backup_path_section (backup_path : string) : gmap string Yaml.t :=
  list_to_map [("backup_dir", Yaml.Str backup_path)].

(** A complete document whose log size has an unknown unit. *)
Definition with_unknown_size_unit : gmap string Yaml.t :=
  <["logging" := Yaml.Map (logging_section "10XB")]>
    (Scenario.configuration "backup" ["*.java"] 3 true true).

End Documents.

(** The paths [validate_paths] requires, in the order it checks them. *)
Definition required_paths (ctx : MigrationContext) (pom struts_config : string)
  : list Path.t :=
  [base_dir ctx; base_dir ctx // pom; base_dir ctx // struts_config].

(** [p] is not there in [w]. *)
Definition missing (w : World) (p : Path.t) : bool :=
  negb (FS.exists_ (fs w) (resolve w p)).

(** Some component of the path [p] is a regular file in [f]. *)
Definition blocked (f : FS.t) (p : list string) : Prop :=
  exists q c, q `prefix_of` p /\ FS.lookup_node f q = Some (FS.File c).

(** Further trees. *)
Module Trees.

(** The project with a regular file where the backup directory goes. *)
Definition backup_is_a_file : FS.t :=
  <[ ["proj"; "backup"] := FS.File "old" ]> Scenario.tree.

(** The project without its Struts descriptor. *)
Definition without_struts_config : FS.t :=
  delete ["proj"; "struts-config.xml"] Scenario.tree.

End Trees.

(** The transformer [_process_file] hands [file_path] to, if any. *)
Definition transformer_for
    (java xml jsp : list string -> Path.t -> FS.t -> FS.t * option exn)
    (file_path : Path.t)
  : option (list string -> Path.t -> FS.t -> FS.t * option exn) :=
  if String.eqb (Path.suffix file_path) ".java" then Some java
  else if String.eqb (Path.suffix file_path) ".xml" then Some xml
  else if String.eqb (Path.suffix file_path) ".jsp" then Some jsp
  else None.

(** A transformer that rewrites the file and then fails on the file
    called [name]. *)
Definition rewrite_then_fail_on (name : string) (cwd : list string)
    (file_path : Path.t) (f : FS.t) : FS.t * option exn :=
  let path := if Path.absolute file_path then Path.parts file_path
              else cwd ++ Path.parts file_path in
  (<[path := FS.File "rewritten"]> f,
   if String.eqb (Path.name file_path) name
   then Some (RuntimeError "cannot transform")
   else None).

(** A glob expansion that fails on the pattern [bad] and otherwise
    answers as the wildcard matcher does. *)
Definition glob_failing_on (bad : string) (f : FS.t) (cwd : list string)
    (base : Path.t) (pattern : string) : result (list Path.t) :=
  if String.eqb pattern bad then Err (RuntimeError "cannot list directory")
  else Glob.glob f cwd base pattern.

(** * Properties *)

(** ** Size strings *)

Section ParseSize.

Import Str.

Lemma isdigit_upper_char c : isdigit (upper_char c) = isdigit c.
Proof. destruct c as [[] [] [] [] [] [] [] []]; reflexivity. Qed.

Lemma upper_char_digit c : isdigit c = true -> upper_char c = c.
Proof. destruct c as [[] [] [] [] [] [] [] []]; (reflexivity || discriminate). Qed.

Lemma isalpha_digit c : isdigit c = true -> isalpha c = false.
Proof. destruct c as [[] [] [] [] [] [] [] []]; (reflexivity || discriminate). Qed.

Lemma filter_append p s t : filter p (s +:+ t) = filter p s +:+ filter p t.
Proof.
  induction s as [|c s IH]; simpl; [reflexivity|].
  rewrite IH. destruct (p c); reflexivity.
Qed.

Lemma upper_append s t : upper (s +:+ t) = upper s +:+ upper t.
Proof. induction s as [|c s IH]; simpl; [reflexivity | now rewrite IH]. Qed.

Lemma append_empty_r s : s +:+ "" = s.
Proof.
  induction s as [|c s IH]; [reflexivity|].
  change (String c (s +:+ "") = String c s). now f_equal.
Qed.

Lemma filter_digits_upper s : filter isdigit (upper s) = filter isdigit s.
Proof.
  induction s as [|c s IH]; simpl; [reflexivity|].
  rewrite isdigit_upper_char, IH.
  destruct (isdigit c) eqn:Hc; [|reflexivity].
  now rewrite upper_char_digit.
Qed.

Lemma filter_digits_all s : all isdigit s = true -> filter isdigit s = s.
Proof.
  induction s as [|c s IH]; simpl; [reflexivity|].
  intros [Hc Hs]%andb_prop. rewrite Hc, IH; auto.
Qed.

Lemma filter_alpha_digits s : all isdigit s = true -> filter isalpha (upper s) = "".
Proof.
  induction s as [|c s IH]; simpl; [reflexivity|].
  intros [Hc Hs]%andb_prop.
  rewrite (upper_char_digit _ Hc), (isalpha_digit _ Hc). auto.
Qed.

Lemma size_number_upper s : size_number (upper s) = size_number s.
Proof. apply filter_digits_upper. Qed.



Lemma parse_size_by_upper s t : upper s = upper t -> parse_size s = parse_size t.
Proof.
  intros H. unfold parse_size, size_unit.
  rewrite <- (size_number_upper s), <- (size_number_upper t), H.
  reflexivity.
Qed.

Lemma units_lookup_other u :
  u ∉ ["B"; "KB"; "MB"; "GB"] -> units !! u = None.
Proof.
  intros H. unfold units.
  rewrite !lookup_insert_ne; [apply lookup_empty|..];
    intros Heq; apply H; rewrite <- Heq; set_solver.
Qed.

Lemma known_unit_shape u :
  upper u ∈ ["B"; "KB"; "MB"; "GB"] ->
  filter isdigit u = "" /\ filter isalpha (upper u) = upper u.
Proof.
  intros H. rewrite <- filter_digits_upper.
  set_unfold in H.
  destruct H as [-> | [-> | [-> | [-> | []]]]]; split; reflexivity.
Qed.

End ParseSize.

(** C8: [parse_size] maps "10MB", "512KB" and "1GB" to 10485760, 524288
    and 1073741824; the result depends on the letters only up to case,
    every digit string (within the interpreter's conversion limit)
    followed by B, KB, MB or GB in either case is accepted with the
    unit's factor, and an input whose letters spell no known unit, such
    as "10XB", raises instead of returning. *)
Theorem parse_size_units :
  parse_size "10MB" = Val 10485760 /\
  parse_size "512KB" = Val 524288 /\
  parse_size "1GB" = Val 1073741824 /\
  parse_size "10XB" = Err (KeyError "XB") /\
  (forall s t, Str.upper s = Str.upper t -> parse_size s = parse_size t) /\
  (forall digits unit,
      digits <> "" -> Str.all Str.isdigit digits = true ->
      (String.length digits <= Str.max_str_digits)%nat ->
      Str.upper unit ∈ ["B"; "KB"; "MB"; "GB"] ->
      exists factor,
        units !! Str.upper unit = Some factor /\
        parse_size (digits +:+ unit) = Val (Str.decimal digits * factor)) /\
  (forall s, size_unit s ∉ ["B"; "KB"; "MB"; "GB"] ->
             exists e, parse_size s = Err e).
Proof.
  repeat split; try (vm_compute; reflexivity).
  - apply parse_size_by_upper.
  - intros digits unit Hne Hd Hlen Hu.
    destruct (known_unit_shape unit Hu) as [Hdig Halpha].
    assert (exists factor, units !! Str.upper unit = Some factor) as [factor Hf].
    { set_unfold in Hu.
      destruct Hu as [-> | [-> | [-> | [-> | []]]]]; eexists; vm_compute; reflexivity. }
    exists factor. split; [exact Hf|].
    unfold parse_size, size_number, size_unit.
    rewrite filter_append, upper_append, filter_append.
    rewrite (filter_digits_all _ Hd), Hdig, (filter_alpha_digits _ Hd), Halpha.
    rewrite append_empty_r.
    change ("" +:+ Str.upper unit) with (Str.upper unit).
    unfold units_getitem. rewrite Hf.
    unfold Str.int. destruct digits as [|c digits]; [congruence|].
    replace (Str.max_str_digits <? String.length (String c digits))%nat with false
      by (symmetry; apply Nat.ltb_ge; exact Hlen).
    reflexivity.
  - intros s Hs. unfold parse_size.
    destruct (Str.int (size_number s)) as [n | e]; simpl; [|eauto].
    unfold units_getitem. rewrite (units_lookup_other _ Hs). simpl. eauto.
Qed.

Lemma parse_size_units_witness :
  parse_size "10mb" = parse_size "10MB" /\
  (exists factor,
      units !! Str.upper "kb" = Some factor /\
      parse_size ("512" +:+ "kb") = Val (Str.decimal "512" * factor)) /\
  (exists e, parse_size "10XB" = Err e).
Proof.
  destruct parse_size_units as (_ & _ & _ & _ & Hcase & Hok & Hbad).
  split; [|split].
  - apply Hcase. reflexivity.
  - apply Hok; [discriminate | reflexivity | unfold Str.max_str_digits; simpl; lia | compute_done].
  - apply Hbad. compute_done.
Defined.

(** ** Configuration validation *)

Lemma check_sections_present cfg sections :
  Forall (fun s => is_Some (cfg !! s)) sections ->
  check_sections cfg sections = Val tt.
Proof.
  induction 1 as [|s l [v Hv] _ IH]; simpl; [reflexivity|].
  now rewrite Hv.
Qed.

Lemma check_sections_missing cfg sections :
  (exists s, s ∈ sections /\ cfg !! s = None) ->
  exists s, s ∈ sections /\ cfg !! s = None /\
    check_sections cfg sections =
      Err (ValueError ("Missing required configuration section: " +:+ s)).
Proof.
  induction sections as [|s l IH]; intros (s0 & Hin & Hs0).
  - inversion Hin.
  - simpl. destruct (cfg !! s) as [v|] eqn:Hs.
    + destruct IH as (s1 & Hin1 & Hs1 & Hc).
      { exists s0. split; [|exact Hs0].
        apply elem_of_cons in Hin as [-> | Hin]; [congruence | exact Hin]. }
      exists s1. repeat split; [now apply elem_of_cons; right | exact Hs1 | exact Hc].
    + exists s. repeat split; [apply elem_of_cons; now left | exact Hs].
Qed.

(** C7: a configuration mapping that has all five required sections
    passes validation; one that lacks a required section makes
    validation, the construction of the configuration manager and of the
    migration manager raise a [ValueError] naming a missing section, and
    [main] then exits with status 1 having only printed the failure: the
    file tree, the log and the list of submitted files are as before. *)
Theorem missing_section_is_fatal (cfg : gmap string Yaml.t) :
  (Forall (fun s => is_Some (cfg !! s)) required_sections ->
   _validate_config cfg = Val tt /\ ConfigurationManager_init cfg = Val cfg) /\
  ((exists s, s ∈ required_sections /\ cfg !! s = None) ->
   exists section,
     section ∈ required_sections /\ cfg !! section = None /\
     let e := ValueError ("Missing required configuration section: " +:+ section) in
     _validate_config cfg = Err e /\
     ConfigurationManager_init cfg = Err e /\
     forall base, MigrationManager_init cfg base = Err e /\
     forall glob path_match java xml jsp w,
       main glob path_match java xml jsp (Val cfg) base w =
         (1, add_stdout ("Migration failed: " +:+ str e) w)).
Proof.
  split.
  - intros H. unfold ConfigurationManager_init, _validate_config.
    now rewrite (check_sections_present _ _ H).
  - intros H.
    destruct (check_sections_missing _ _ H) as (s & Hin & Hs & Hc).
    exists s. cbv zeta.
    assert (ConfigurationManager_init cfg =
            Err (ValueError ("Missing required configuration section: " +:+ s))) as Hi.
    { unfold ConfigurationManager_init, _validate_config. now rewrite Hc. }
    repeat split; try assumption.
    + unfold MigrationManager_init. now rewrite Hi.
    + intros. unfold main, MigrationManager_init. now rewrite Hi.
Qed.

Lemma missing_section_is_fatal_witness :
  _validate_config (Scenario.configuration "backup" ["*.java"] 3 true true) = Val tt /\
  exists section,
    section ∈ required_sections /\
    Scenario.configuration_without_logging !! section = None /\
    _validate_config Scenario.configuration_without_logging =
      Err (ValueError ("Missing required configuration section: " +:+ section)).
Proof.
  split.
  - apply (proj1 (missing_section_is_fatal _)).
    unfold required_sections. repeat constructor; vm_compute; eauto.
  - destruct (proj2 (missing_section_is_fatal Scenario.configuration_without_logging))
      as (s & Hin & Hs & Hv & _).
    + exists "logging". split; [compute_done | vm_compute; reflexivity].
    + exists s. auto.
Defined.

(** ** Per-file processing *)

Section PerFile.

Variable glob : FS.t -> list string -> Path.t -> string -> result (list Path.t).
Variable path_match : Path.t -> string -> result bool.
Variables java xml jsp : list string -> Path.t -> FS.t -> FS.t * option exn.

Abbreviation process_file := (_process_file java xml jsp).
Abbreviation submit_file := (submit java xml jsp).

(** C9: for a file whose suffix is none of [.java], [.xml] and [.jsp],
    [_process_file] returns normally and leaves the world as it was: no
    transformer has touched the tree and nothing was logged.  Submitting
    it yields a future without exception, and collecting that future
    records nothing. *)
Theorem unrecognised_suffix_noop ctx file_path w :
  Path.suffix file_path <> ".java" ->
  Path.suffix file_path <> ".xml" ->
  Path.suffix file_path <> ".jsp" ->
  process_file ctx file_path w = Return tt w /\
  submit_file ctx file_path w = Return None (add_submitted file_path w) /\
  collect None (add_submitted file_path w) = Return tt (add_submitted file_path w).
Proof.
  intros Hj Hx Hp.
  assert (forall w', process_file ctx file_path w' = Return tt w') as H.
  { intros w'. unfold _process_file, try_except.
    apply String.eqb_neq in Hj, Hx, Hp. now rewrite Hj, Hx, Hp. }
  split; [apply H|]. split; [|reflexivity].
  unfold submit. now rewrite H.
Qed.

End PerFile.

Lemma unrecognised_suffix_noop_witness :
  let ctx := Scenario.context (Scenario.configuration "backup" ["*"] 3 true true) in
  let notes := Path.of_string "/proj/notes.txt" in
  let w := Scenario.world Scenario.tree in
  _process_file (Scenario.fail_on "notes.txt") (Scenario.fail_on "notes.txt")
                (Scenario.fail_on "notes.txt") ctx notes w = Return tt w.
Proof.
  intros ctx notes w.
  apply (unrecognised_suffix_noop _ _ _ ctx notes w); vm_compute; discriminate.
Defined.

(** ** Rollback *)

Section Rollback.

Variable glob : FS.t -> list string -> Path.t -> string -> result (list Path.t).
Variable path_match : Path.t -> string -> result bool.
Variables java xml jsp : list string -> Path.t -> FS.t -> FS.t * option exn.

Lemma rollback_skipped ctx w :
  FS.exists_ (fs w) (resolve w (backup_dir ctx)) = false ->
  _rollback ctx w = Return tt w.
Proof.
  intros H. unfold _rollback, bind, path_exists. now rewrite H.
Qed.

(** C10: when the steps of a run raise [e] in a world where the backup
    directory does not exist and rollback is enabled, [_rollback] returns
    without touching anything, and [execute_migration] raises the same
    [e]; the world it ends in differs from the one of the failure by the
    logged [Migration failed] record only, so the file tree is the one
    the failure left. *)
Theorem rollback_without_backup ctx w e w1 enabled :
  migration_steps glob path_match java xml jsp ctx w = Raise e w1 ->
  config_get ctx "migration" "rollback_enabled" = Val enabled ->
  Yaml.truthy enabled = true ->
  FS.exists_ (fs w1) (resolve w1 (backup_dir ctx)) = false ->
  let w2 := add_log "ERROR" ("Migration failed: " +:+ str e) w1 in
  _rollback ctx w2 = Return tt w2 /\
  execute_migration glob path_match java xml jsp ctx w = Raise e w2 /\
  fs w2 = fs w1.
Proof.
  intros Hsteps Hcfg Htrue Hmissing w2.
  assert (_rollback ctx w2 = Return tt w2) as Hrb.
  { apply rollback_skipped. exact Hmissing. }
  repeat split; [exact Hrb|].
  unfold execute_migration, try_except. rewrite Hsteps.
  unfold on_failure, bind, logger_error, lift. fold w2.
  rewrite Hcfg, Htrue, Hrb. reflexivity.
Qed.

End Rollback.

Lemma rollback_without_backup_witness :
  let ctx := Scenario.context (Scenario.configuration "backup" ["*.java"] 3 true true) in
  let w := Scenario.world Scenario.tree_without_pom in
  let e := ValueError "Required path does not exist: /proj/pom.xml" in
  execute_migration Glob.glob Glob.path_match Glob.pass Glob.pass Glob.pass ctx w =
    Raise e (add_log "ERROR" ("Migration failed: " +:+ str e) w).
Proof.
  intros ctx w e.
  apply (rollback_without_backup Glob.glob Glob.path_match Glob.pass Glob.pass
           Glob.pass ctx w e w (Yaml.Bool true));
    vm_compute; reflexivity.
Defined.

(** ** Batching *)

Lemma ceil_div_bounds n b :
  0 < b -> b * (ceil_div n b - 1) < n <= b * ceil_div n b.
Proof.
  intros Hb. unfold ceil_div.
  pose proof (Z.div_mod (n + b - 1) b ltac:(lia)) as Hdm.
  pose proof (Z.mod_pos_bound (n + b - 1) b Hb) as Hm.
  nia.
Qed.

Lemma ceil_div_step n b : 0 < b -> 0 < n -> ceil_div n b = 1 + ceil_div (n - b) b.
Proof.
  intros Hb Hn. unfold ceil_div.
  replace (n + b - 1) with ((n - b + b - 1) + 1 * b) by lia.
  rewrite Z.div_add by lia. lia.
Qed.

Lemma ceil_div_nonneg n b : 0 < b -> 0 <= n -> 0 <= ceil_div n b.
Proof. intros Hb Hn. unfold ceil_div. apply Z.div_pos; lia. Qed.

Lemma ceil_div_nonpos n b : 0 < b -> n <= 0 -> ceil_div n b <= 0.
Proof.
  intros Hb Hn. unfold ceil_div.
  assert ((n + b - 1) / b < 1); [|lia].
  apply Z.div_lt_upper_bound; lia.
Qed.

Lemma range_from_count stop step :
  0 < step ->
  forall fuel i,
    (Z.to_nat (ceil_div (stop - i) step) <= fuel)%nat ->
    range_from fuel i stop step =
      (fun k : nat => i + Z.of_nat k * step) <$>
        seq 0 (Z.to_nat (ceil_div (stop - i) step)).
Proof.
  intros Hstep. induction fuel as [|fuel IH]; intros i Hfuel.
  - replace (Z.to_nat (ceil_div (stop - i) step)) with O by lia. reflexivity.
  - simpl. replace (0 <? step) with true by (symmetry; apply Z.ltb_lt; lia).
    destruct (Z.ltb_spec i stop) as [Hlt | Hge].
    + pose proof (ceil_div_step (stop - i) step Hstep ltac:(lia)) as Hs.
      replace (stop - i - step) with (stop - (i + step)) in Hs by lia.
      pose proof (ceil_div_bounds (stop - (i + step)) step Hstep) as Hb.
      assert (0 <= ceil_div (stop - (i + step)) step) as Hnn by nia.
      replace (Z.to_nat (ceil_div (stop - i) step))
        with (S (Z.to_nat (ceil_div (stop - (i + step)) step))) in * by lia.
      rewrite IH by lia. cbn [seq fmap list_fmap].
      f_equal; [lia|].
      rewrite <- fmap_S_seq, <- list_fmap_compose.
      apply list_fmap_ext. intros _ k _. simpl. lia.
    + pose proof (ceil_div_nonpos (stop - i) step Hstep ltac:(lia)).
      replace (Z.to_nat (ceil_div (stop - i) step)) with O by lia. reflexivity.
Qed.

Lemma range_count stop step :
  0 < step -> 0 <= stop ->
  range 0 stop step =
    Val ((fun k : nat => Z.of_nat k * step) <$> seq 0 (Z.to_nat (ceil_div stop step))).
Proof.
  intros Hstep Hstop. unfold range.
  replace (Z.eqb step 0) with false by (symmetry; apply Z.eqb_neq; lia).
  rewrite range_from_count; [|exact Hstep|].
  - rewrite Z.sub_0_r. f_equal.
  - rewrite !Z.sub_0_r.
    pose proof (ceil_div_bounds stop step Hstep). nia.
Qed.

Lemma slice_chunk {A} (l : list A) (k : nat) (b : Z) :
  0 < b ->
  slice l (Z.of_nat k * b) (Z.of_nat k * b + b) =
    take (Z.to_nat b) (drop (k * Z.to_nat b) l).
Proof.
  intros Hb. unfold slice.
  assert (Z.to_nat (Z.of_nat k * b) = (k * Z.to_nat b)%nat) as -> by nia.
  f_equal. nia.
Qed.

Lemma batches_chunks {A} (files : list A) (b : Z) :
  0 < b ->
  batches files b =
    Val ((fun k : nat => take (Z.to_nat b) (drop (k * Z.to_nat b) files)) <$>
           seq 0 (Z.to_nat (ceil_div (Z.of_nat (length files)) b))).
Proof.
  intros Hb. unfold batches. rewrite range_count by lia. simpl.
  f_equal. rewrite <- list_fmap_compose.
  apply list_fmap_ext. intros _ k _. simpl. now apply slice_chunk.
Qed.

Lemma concat_chunks {A} (l : list A) (n m : nat) :
  concat ((fun k : nat => take n (drop (k * n) l)) <$> seq 0 m) = take (m * n) l.
Proof.
  induction m as [|m IH]; [reflexivity|].
  rewrite seq_S, fmap_app, concat_app, IH. simpl.
  rewrite app_nil_r, take_take_drop. f_equal. lia.
Qed.

(** ** Dispatch *)

Section Dispatch.

Variable glob : FS.t -> list string -> Path.t -> string -> result (list Path.t).
Variable path_match : Path.t -> string -> result bool.
Variables java xml jsp : list string -> Path.t -> FS.t -> FS.t * option exn.
Variable ctx : MigrationContext.

Abbreviation process_one := (_process_file java xml jsp ctx).
Abbreviation submit_one := (submit java xml jsp ctx).
Abbreviation run_one_batch := (run_batch java xml jsp ctx).
Abbreviation fails := (always_raises java xml jsp ctx).

Lemma run_transformer_frame tr file_path w :
  submitted (world_of (run_transformer tr file_path w)) = submitted w /\
  log (world_of (run_transformer tr file_path w)) = log w.
Proof.
  unfold run_transformer.
  destruct (tr (cwd w) file_path (fs w)) as [f [e|]]; simpl; auto.
Qed.

Lemma handled_frame (body : M unit) file_path w :
  submitted (world_of (body w)) = submitted w ->
  log (world_of (body w)) = log w ->
  let o := try_except body
             (fun e => logger_error ("Error processing " +:+ Path.to_string file_path
                                     +:+ ": " +:+ str e) ;;; raise e) w in
  submitted (world_of o) = submitted w /\
  match o with
  | Return _ w' => log w' = log w
  | Raise e w' => log w' = log w ++ [file_error file_path e]
  end.
Proof.
  intros Hs Hl. unfold try_except.
  destruct (body w) as [[] w' | e w']; simpl in *; [auto|].
  unfold file_error. rewrite Hs, Hl. auto.
Qed.

Lemma process_file_frame file_path w :
  submitted (world_of (process_one file_path w)) = submitted w /\
  match process_one file_path w with
  | Return _ w' => log w' = log w
  | Raise e w' => log w' = log w ++ [file_error file_path e]
  end.
Proof.
  unfold _process_file.
  repeat match goal with
         | |- context [if ?b then _ else _] => destruct b
         end;
    apply handled_frame; try apply run_transformer_frame; reflexivity.
Qed.

Lemma submit_spec file_path w :
  exists future w',
    submit_one file_path w = Return future w' /\
    submitted w' = submitted w ++ [file_path] /\
    log w `prefix_of` log w' /\
    (forall e, fails file_path e ->
               future = Some e /\ file_error file_path e ∈ log w').
Proof.
  unfold submit.
  pose proof (process_file_frame file_path (add_submitted file_path w)) as [Hs Hl].
  destruct (process_one file_path (add_submitted file_path w)) as [[] w' | e w'] eqn:Hrun;
    simpl in *.
  - exists None, w'. repeat split; [exact Hs | now rewrite Hl|..];
      destruct (H (add_submitted file_path w)) as [v Hv]; congruence.
  - exists (Some e), w'. repeat split; [exact Hs | rewrite Hl; now eexists|..];
      destruct (H (add_submitted file_path w)) as [v Hv];
      rewrite Hv in Hrun; injection Hrun as <- <-; [reflexivity|].
    rewrite Hl. apply elem_of_app. right. apply list_elem_of_singleton. reflexivity.
Qed.

Lemma mapM_submit batch :
  forall w, exists futures w',
    mapM submit_one batch w = Return futures w' /\
    submitted w' = submitted w ++ batch /\
    log w `prefix_of` log w' /\
    (forall file e, file ∈ batch -> fails file e ->
                    Some e ∈ futures /\ file_error file e ∈ log w').
Proof.
  induction batch as [|file rest IH]; intros w.
  - exists [], w. simpl. unfold ret. rewrite app_nil_r.
    repeat split; try reflexivity; intros; exfalso; eapply not_elem_of_nil; eauto.
  - destruct (submit_spec file w) as (future & w1 & Hsub & Hs1 & Hl1 & Hf1).
    destruct (IH w1) as (futures & w2 & Hmap & Hs2 & Hl2 & Hf2).
    exists (future :: futures), w2. simpl. unfold bind at 1. rewrite Hsub.
    unfold bind at 1. rewrite Hmap. unfold ret.
    split; [reflexivity|]. split; [|split].
    + rewrite Hs2, Hs1, <- app_assoc. reflexivity.
    + etransitivity; eassumption.
    + intros f e Hin Hfail. apply elem_of_cons in Hin as [-> | Hin].
      * destruct (Hf1 e Hfail) as [-> Hlog]. split; [apply elem_of_cons; now left|].
        destruct Hl2 as [k ->]. apply elem_of_app. now left.
      * destruct (Hf2 f e Hin Hfail). split; [apply elem_of_cons; now right | assumption].
Qed.

Lemma forM_collect futures :
  forall w, exists w',
    forM_ futures collect w = Return tt w' /\
    submitted w' = submitted w /\
    fs w' = fs w /\
    log w `prefix_of` log w' /\
    (forall e, Some e ∈ futures -> future_error e ∈ log w').
Proof.
  induction futures as [|future rest IH]; intros w.
  - exists w. simpl. unfold ret.
    repeat split; try reflexivity. intros e He. inversion He.
  - simpl. unfold bind.
    assert (exists w1, collect future w = Return tt w1 /\
              submitted w1 = submitted w /\ fs w1 = fs w /\
              log w `prefix_of` log w1 /\
              (forall e, future = Some e -> future_error e ∈ log w1))
      as (w1 & -> & Hs1 & Hf1 & Hl1 & He1).
    { destruct future as [e|]; simpl.
      - eexists. split; [reflexivity|]. simpl.
        repeat split; [now eexists|].
        intros e' [= <-]. apply elem_of_app. right.
        apply list_elem_of_singleton. reflexivity.
      - exists w. unfold ret. repeat split; try reflexivity. discriminate. }
    destruct (IH w1) as (w2 & -> & Hs2 & Hf2 & Hl2 & He2).
    exists w2. split; [reflexivity|].
    split; [congruence|]. split; [congruence|]. split; [etransitivity; eassumption|].
    intros e He. apply elem_of_cons in He as [<- | He]; [|auto].
    destruct Hl2 as [k ->]. apply elem_of_app. left. now apply He1.
Qed.

Lemma run_batch_spec batch w :
  exists w',
    run_one_batch batch w = Return tt w' /\
    submitted w' = submitted w ++ batch /\
    log w `prefix_of` log w' /\
    (forall file e, file ∈ batch -> fails file e ->
                    file_error file e ∈ log w' /\ future_error e ∈ log w').
Proof.
  destruct (mapM_submit batch w) as (futures & w1 & Hmap & Hs1 & Hl1 & Hf1).
  destruct (forM_collect futures w1) as (w2 & Hcol & Hs2 & _ & Hl2 & Hf2).
  exists w2. unfold run_batch, bind. rewrite Hmap, Hcol.
  split; [reflexivity|]. split; [congruence|]. split; [etransitivity; eassumption|].
  intros file e Hin Hfail. destruct (Hf1 file e Hin Hfail) as [Hfut Hlog].
  split; [|now apply Hf2].
  destruct Hl2 as [k ->]. apply elem_of_app. now left.
Qed.

Lemma run_batches_spec bs :
  forall w, exists w',
    forM_ bs run_one_batch w = Return tt w' /\
    submitted w' = submitted w ++ concat bs /\
    log w `prefix_of` log w' /\
    (forall file e, file ∈ concat bs -> fails file e ->
                    file_error file e ∈ log w' /\ future_error e ∈ log w').
Proof.
  induction bs as [|batch rest IH]; intros w.
  - exists w. simpl. unfold ret. rewrite app_nil_r.
    repeat split; try reflexivity; intros; exfalso; eapply not_elem_of_nil; eauto.
  - destruct (run_batch_spec batch w) as (w1 & Hrun & Hs1 & Hl1 & Hf1).
    destruct (IH w1) as (w2 & Hrest & Hs2 & Hl2 & Hf2).
    exists w2. simpl. unfold bind. rewrite Hrun, Hrest.
    split; [reflexivity|]. split; [|split].
    + rewrite Hs2, Hs1, <- app_assoc. reflexivity.
    + etransitivity; eassumption.
    + intros file e Hin Hfail. apply elem_of_app in Hin as [Hin | Hin]; [|eauto].
      destruct (Hf1 file e Hin Hfail) as [H1 H2].
      destruct Hl2 as [k ->]. split; apply elem_of_app; now left.
Qed.

Lemma process_files_dispatch w files batch_size threads bs :
  discovers glob path_match ctx w files ->
  batch_settings ctx batch_size threads ->
  0 < threads ->
  batches files batch_size = Val bs ->
  process_files glob path_match java xml jsp ctx w = forM_ bs run_one_batch w.
Proof.
  intros (patterns & inc & exc & Hp & Hi & He & Hg) [Hb Ht] Hpos Hbs.
  unfold process_files, bind, lift, _gather_files.
  rewrite Hp, Hi, He, Hg, Hb, Ht. simpl.
  replace (threads <=? 0) with false by (symmetry; apply Z.leb_gt; lia).
  simpl. rewrite Hbs. reflexivity.
Qed.

Lemma batches_concat {A} (files : list A) (B : Z) :
  0 < B -> exists bs, batches files B = Val bs /\ concat bs = files.
Proof.
  intros HB. eexists. split; [now apply batches_chunks|].
  rewrite concat_chunks. apply take_ge.
  pose proof (ceil_div_bounds (Z.of_nat (length files)) B HB). nia.
Qed.

(** C4: for a positive batch size [B], the loop of [process_files]
    visits the batches [files[k*B : k*B+B]] for [k] below
    [ceil(N / B)], in order: there are [ceil(N / B)] of them, each holds
    between 1 and [B] files and each but the last exactly [B], and
    together they are the file list.  Running
    them returns normally whatever the transformers do, and extends the
    list of submitted files by exactly the file list; so does
    [process_files] on a configuration with that batch size. *)
Theorem batches_cover_files (files : list Path.t) (B : Z) :
  0 < B ->
  exists bs,
    batches files B = Val bs /\
    length bs = Z.to_nat (ceil_div (Z.of_nat (length files)) B) /\
    B * (ceil_div (Z.of_nat (length files)) B - 1) < Z.of_nat (length files)
      <= B * ceil_div (Z.of_nat (length files)) B /\
    (forall k batch,
        bs !! k = Some batch ->
        batch = take (Z.to_nat B) (drop (k * Z.to_nat B) files) /\
        (0 < length batch <= Z.to_nat B)%nat /\
        (S k < length bs -> length batch = Z.to_nat B)%nat) /\
    concat bs = files /\
    (forall w, exists w',
        forM_ bs run_one_batch w = Return tt w' /\
        submitted w' = submitted w ++ files) /\
    (forall w threads,
        discovers glob path_match ctx w files ->
        batch_settings ctx B threads ->
        0 < threads ->
        exists w',
          process_files glob path_match java xml jsp ctx w = Return tt w' /\
          submitted w' = submitted w ++ files).
Proof.
  intros HB.
  pose proof (ceil_div_bounds (Z.of_nat (length files)) B HB) as Hceil.
  set (m := ceil_div (Z.of_nat (length files)) B) in *.
  assert (0 <= m) as Hm by nia.
  pose proof (batches_chunks files B HB) as Hbs. fold m in Hbs.
  set (bs := (fun k : nat => take (Z.to_nat B) (drop (k * Z.to_nat B) files)) <$>
               seq 0 (Z.to_nat m)) in *.
  assert (concat bs = files) as Hcat.
  { unfold bs. rewrite concat_chunks. apply take_ge. nia. }
  assert (forall w, exists w',
             forM_ bs run_one_batch w = Return tt w' /\
             submitted w' = submitted w ++ files) as Hrun.
  { intros w. destruct (run_batches_spec bs w) as (w' & Hr & Hs & _).
    exists w'. rewrite Hcat in Hs. auto. }
  exists bs. split; [exact Hbs|]. split; [|split; [exact Hceil|split; [|split; [exact Hcat|split]]]].
  - unfold bs. now rewrite length_fmap, length_seq.
  - intros k batch Hk. unfold bs in Hk.
    rewrite list_lookup_fmap in Hk.
    destruct (seq 0 (Z.to_nat m) !! k) as [k'|] eqn:Hseq; [|discriminate].
    apply lookup_seq in Hseq as [-> Hlt]. simpl in Hk. injection Hk as <-.
    split; [reflexivity|].
    rewrite length_take, length_drop. unfold bs.
    rewrite length_fmap, length_seq. split; [nia|]. intros Hlast. nia.
  - exact Hrun.
  - intros w threads Hd Hset Ht.
    rewrite (process_files_dispatch w files B threads bs Hd Hset Ht Hbs).
    apply Hrun.
Qed.


End Dispatch.

Lemma batches_cover_files_witness :
  exists bs,
    batches Scenario.discovered 3 = Val bs /\
    length bs = Z.to_nat (ceil_div 7 3) /\
    concat bs = Scenario.discovered.
Proof.
  destruct (batches_cover_files Glob.glob Glob.path_match
              (Scenario.fail_on "B.java") Glob.pass Glob.pass
              (Scenario.context
                 (Scenario.configuration "backup" ["*.java"; "*.xml"; "*.txt"] 3 false false))
              Scenario.discovered 3 ltac:(lia))
    as (bs & Hbs & Hlen & _ & _ & Hcat & _).
  exists bs. auto.
Defined.


(** ** Discovery *)

Section Discovery.

Variable glob : FS.t -> list string -> Path.t -> string -> result (list Path.t).
Variable path_match : Path.t -> string -> result bool.
Variable w : World.
Variable base : Path.t.

(** What the two collaborators answer, as total functions. *)
Variable expansion : string -> list Path.t.
Variable matches : Path.t -> string -> bool.

Abbreviation kept := (not_excluded matches).

Lemma extend_all_spec inc :
  (forall p, p ∈ inc -> glob (fs w) (cwd w) base p = Val (expansion p)) ->
  forall files,
    extend_all glob w base (Yaml.Str <$> inc) files =
      Val (files ++ concat (expansion <$> inc)).
Proof.
  induction inc as [|p inc IH]; intros Hg files; simpl.
  - now rewrite app_nil_r.
  - rewrite Hg by (apply elem_of_cons; now left). simpl.
    rewrite IH by (intros q Hq; apply Hg, elem_of_cons; now right).
    now rewrite app_assoc.
Qed.

Lemma filter_not_match_spec p files :
  (forall f, path_match f p = Val (matches f p)) ->
  filter_not_match path_match (Yaml.Str p) files =
    Val (List.filter (fun f => negb (matches f p)) files).
Proof.
  intros Hm. induction files as [|f files IH]; simpl; [reflexivity|].
  rewrite Hm, IH. simpl. now destruct (matches f p).
Qed.

Lemma filter_twice {A} (p q : A -> bool) (l : list A) :
  List.filter q (List.filter p l) = List.filter (fun x => p x && q x) l.
Proof.
  induction l as [|x l IH]; simpl; [reflexivity|].
  destruct (p x); simpl; [destruct (q x)|]; now rewrite IH.
Qed.

Lemma exclude_all_spec exc :
  (forall f p, p ∈ exc -> path_match f p = Val (matches f p)) ->
  forall files,
    exclude_all path_match (Yaml.Str <$> exc) files =
      Val (List.filter (kept exc) files).
Proof.
  induction exc as [|p exc IH]; intros Hm files; simpl.
  - f_equal. induction files as [|f files IHf]; simpl; [reflexivity | now f_equal].
  - rewrite filter_not_match_spec
      by (intros f; apply Hm, elem_of_cons; now left).
    simpl. rewrite IH by (intros f q Hq; apply Hm, elem_of_cons; now right).
    now rewrite filter_twice.
Qed.

Lemma kept_spec exc f :
  kept exc f = true <-> forall p, p ∈ exc -> matches f p = false.
Proof.
  unfold not_excluded. rewrite forallb_forall. split; intros H p Hp.
  - apply negb_true_iff, H, list_elem_of_In, Hp.
  - apply negb_true_iff, H, list_elem_of_In, Hp.
Qed.

(** C5, as the code has it: when the collaborators answer, discovery
    returns the expansions of the inclusion patterns, concatenated in
    pattern order, without the paths that match some exclusion pattern.
    A path is in the result exactly when some inclusion pattern expands
    to it and no exclusion pattern matches it, so a path matching an
    exclusion pattern never appears.  Nothing is deduplicated or
    sorted. *)
Theorem gather_filters_expansions (inc exc : list string) :
  (forall p, p ∈ inc -> glob (fs w) (cwd w) base p = Val (expansion p)) ->
  (forall f p, p ∈ exc -> path_match f p = Val (matches f p)) ->
  exists files,
    gather glob path_match w base (Yaml.Seq (Yaml.Str <$> inc))
           (Yaml.Seq (Yaml.Str <$> exc)) = Val files /\
    files = List.filter (kept exc) (concat (expansion <$> inc)) /\
    (forall f, f ∈ files <->
               (exists p, p ∈ inc /\ f ∈ expansion p) /\
               (forall p, p ∈ exc -> matches f p = false)) /\
    (forall f p, p ∈ exc -> matches f p = true -> f ∉ files).
Proof.
  intros Hg Hm.
  assert (forall f, f ∈ List.filter (kept exc) (concat (expansion <$> inc)) <->
                    (exists p, p ∈ inc /\ f ∈ expansion p) /\
                    (forall p, p ∈ exc -> matches f p = false)) as Hmem.
  { intros f. rewrite list_elem_of_In, List.filter_In, kept_spec, in_concat. split.
    - intros [(l & Hl & Hf) Hk]. split; [|exact Hk].
      apply (proj2 (list_elem_of_In _ _)), list_elem_of_fmap in Hl as (p & -> & Hp).
      exists p. split; [exact Hp | now apply list_elem_of_In].
    - intros [(p & Hp & Hf) Hk]. split; [|exact Hk].
      exists (expansion p). split; [|now apply list_elem_of_In].
      apply list_elem_of_In, list_elem_of_fmap. eauto. }
  eexists. split; [|split; [reflexivity|split; [exact Hmem|]]].
  - unfold gather. simpl.
    rewrite extend_all_spec by exact Hg. simpl.
    now rewrite exclude_all_spec by exact Hm.
  - intros f p Hp Ht Hin. apply Hmem in Hin as [_ Hk].
    rewrite (Hk p Hp) in Ht. discriminate.
Qed.

End Discovery.

Lemma gather_filters_expansions_witness :
  exists files,
    gather Glob.glob Glob.path_match (Scenario.world Scenario.tree) Scenario.proj
           (Scenario.strs ["*.java"; "*"]) (Scenario.strs ["*.txt"]) = Val files /\
    Scenario.proj // "notes.txt" ∉ files.
Proof.
  destruct (gather_filters_expansions Glob.glob Glob.path_match
              (Scenario.world Scenario.tree) Scenario.proj
              (Scenario.expansion Scenario.tree Scenario.proj) Scenario.matches
              ["*.java"; "*"] ["*.txt"])
    as (files & Hrun & _ & _ & Hexcl).
  - intros p Hp. set_unfold in Hp.
    destruct Hp as [-> | [-> | []]]; vm_compute; reflexivity.
  - intros f p Hp. apply list_elem_of_singleton in Hp as ->. reflexivity.
  - exists files. split; [exact Hrun|].
    apply (Hexcl _ "*.txt"); [compute_done | vm_compute; reflexivity].
Defined.

(** C5 as stated fails: with the patterns [*.xml] and [*.*] over a
    project holding [pom.xml] and [A.java], the descriptor is found by
    both patterns and listed twice, and it precedes [A.java]. *)
Lemma discovery_repeats_and_disorders :
  exists files,
    gather Glob.glob Glob.path_match (Scenario.world Scenario.two_files) Scenario.proj
           (Scenario.strs ["*.xml"; "*.*"]) (Scenario.strs []) = Val files /\
    ~ NoDup files /\
    ~ path_sorted files.
Proof.
  eexists. split; [vm_compute; reflexivity|].
  split; [compute_done|].
  unfold path_sorted. compute_done.
Qed.

(** ** The file tree under rollback *)

Section Tree.

Implicit Types (f : FS.t) (src dst base k p r : list string).

Lemma reroot_elem src dst f i x :
  (i, x) ∈ omap (fun kv : list string * FS.node =>
             if decide (src `prefix_of` kv.1)
             then Some (dst ++ drop (length src) kv.1, kv.2)
             else None)
          (map_to_list f) <->
  exists s, i = dst ++ s /\ f !! (src ++ s) = Some x.
Proof.
  rewrite list_elem_of_omap. split.
  - intros ([k v] & Hin & Hg). simpl in Hg.
    apply elem_of_map_to_list in Hin.
    destruct (decide (src `prefix_of` k)) as [[s ->]|]; [|discriminate].
    rewrite drop_app_length in Hg. injection Hg as <- <-. eauto.
  - intros (s & -> & Hs). exists (src ++ s, x). split.
    + now apply elem_of_map_to_list.
    + simpl. rewrite decide_True by (now apply prefix_app_r).
      now rewrite drop_app_length.
Qed.

Lemma reroot_lookup src dst f r :
  FS.reroot src dst f !! (dst ++ r) = f !! (src ++ r).
Proof.
  unfold FS.reroot. destruct (f !! (src ++ r)) as [x|] eqn:Hx.
  - apply elem_of_list_to_map_1'.
    + intros y (s & Hs & Hy)%reroot_elem.
      apply app_inv_head in Hs as <-. congruence.
    + apply reroot_elem. eauto.
  - apply not_elem_of_list_to_map_1.
    intros ([i y] & Hi & Hin)%list_elem_of_fmap. simpl in Hi. subst i.
    apply reroot_elem in Hin as (s & Hs & Hy).
    apply app_inv_head in Hs as <-. congruence.
Qed.

Lemma reroot_lookup_outside src dst f k :
  ~ dst `prefix_of` k -> FS.reroot src dst f !! k = None.
Proof.
  intros Hk. unfold FS.reroot. apply not_elem_of_list_to_map_1.
  intros ([i y] & Hi & Hin)%list_elem_of_fmap. simpl in Hi. subst i.
  apply reroot_elem in Hin as (s & -> & _).
  apply Hk. now apply prefix_app_r.
Qed.

Lemma wf_ancestors f k n :
  FS.wf f -> f !! k = Some n ->
  forall p, p `prefix_of` k -> p <> k -> FS.lookup_node f p = Some FS.Dir.
Proof.
  intros Hwf Hk p [s ->]. revert n Hk.
  induction s as [|c s IH] using rev_ind; intros n Hk Hne.
  - rewrite app_nil_r in Hne. congruence.
  - rewrite app_assoc in Hk. pose proof (Hwf _ _ _ Hk) as Hparent.
    destruct s as [|d s0] using rev_ind.
    + now rewrite app_nil_r in Hparent.
    + clear IHs0. destruct (p ++ s0 ++ [d]) eqn:E.
      { destruct p; destruct s0; discriminate. }
      rewrite <- E in *. simpl in Hparent.
      assert (FS.lookup_node f (p ++ s0 ++ [d]) = f !! (p ++ s0 ++ [d])) as Hl.
      { rewrite E. reflexivity. }
      rewrite Hl in Hparent. eapply IH; [exact Hparent|].
      intros Heq. rewrite <- (app_nil_r p) in Heq at 1.
      apply app_inv_head in Heq. destruct s0; discriminate.
Qed.

Lemma makedirs_from_leaf f todo : forall done c,
  (forall i, (0 < i <= length todo)%nat ->
             FS.lookup_node f (done ++ take i todo) = Some FS.Dir) ->
  f !! (done ++ todo ++ [c]) = None ->
  FS.makedirs_from f done (todo ++ [c]) = Val (<[done ++ todo ++ [c] := FS.Dir]> f).
Proof.
  induction todo as [|d t IH]; intros done c Hanc Hnone.
  - simpl in *.
    assert (FS.lookup_node f (done ++ [c]) = None) as ->.
    { destruct (done ++ [c]) eqn:E; [destruct done; discriminate|]. exact Hnone. }
    reflexivity.
  - pose proof (Hanc 1%nat ltac:(simpl; lia)) as H1. cbn [take] in H1.
    rewrite take_0 in H1. cbn [FS.makedirs_from app]. rewrite H1.
    replace (done ++ d :: t ++ [c]) with ((done ++ [d]) ++ t ++ [c])
      by (now rewrite <- app_assoc).
    apply IH.
    + intros i Hi. rewrite <- app_assoc. apply (Hanc (S i)). simpl. lia.
    + now rewrite <- app_assoc.
Qed.


Lemma lookup_node_nonnil f p : p <> [] -> FS.lookup_node f p = f !! p.
Proof. destruct p; [congruence | reflexivity]. Qed.

Lemma filter_outside_keeps base f k :
  ~ base `prefix_of` k -> filter (FS.outside base) f !! k = f !! k.
Proof.
  intros Hk. rewrite map_lookup_filter.
  destruct (f !! k) as [x|]; simpl; [|reflexivity].
  now rewrite option_guard_True.
Qed.

Lemma filter_outside_drops base f k :
  base `prefix_of` k -> filter (FS.outside base) f !! k = None.
Proof.
  intros Hk. apply map_lookup_filter_None_2.
  destruct (f !! k) as [x|]; [right | now left].
  intros y _ Hout. now apply Hout.
Qed.

(** With the backup directory and the project directory side by side in
    a well-formed tree, [_rollback] returns normally: afterwards every
    path below the project directory holds what the same path below the
    backup directory holds, and nothing outside the project directory
    has changed. *)
Lemma rollback_restores ctx w :
  let base := resolve w (base_dir ctx) in
  let backup := resolve w (backup_dir ctx) in
  FS.wf (fs w) ->
  fs w !! base = Some FS.Dir ->
  fs w !! backup = Some FS.Dir ->
  ~ base `prefix_of` backup ->
  ~ backup `prefix_of` base ->
  exists w',
    _rollback ctx w = Return tt w' /\
    log w' = log w ++ [("INFO", "Rollback completed")] /\
    (forall r, fs w' !! (base ++ r) = fs w !! (backup ++ r)) /\
    (forall k, ~ base `prefix_of` k -> fs w' !! k = fs w !! k).
Proof.
  intros base backup Hwf Hbase Hbackup Hnb Hnp.
  assert (base <> []) as Hbase_ne by (intros E; apply Hnb; rewrite E; apply prefix_nil).
  assert (backup <> []) as Hbackup_ne by (intros E; apply Hnp; rewrite E; apply prefix_nil).
  set (f1 := filter (FS.outside base) (fs w)).
  assert (f1 !! backup = Some FS.Dir) as Hf1_backup.
  { unfold f1. now rewrite filter_outside_keeps. }
  assert (f1 !! base = None) as Hf1_base.
  { unfold f1. now apply filter_outside_drops. }
  assert (FS.makedirs f1 base = Val (<[base := FS.Dir]> f1)) as Hmk.
  { unfold FS.makedirs. clearbody base backup.
    destruct base as [|c pb _] using rev_ind; [congruence|].
    rewrite <- (app_nil_l (pb ++ [c])) at 2.
    apply makedirs_from_leaf; [|exact Hf1_base].
    intros i Hi. simpl.
    assert (take i pb <> []) as Hne.
    { destruct pb; simpl in *; [lia|]. destruct i; [lia | discriminate]. }
    rewrite lookup_node_nonnil by exact Hne.
    unfold f1. rewrite filter_outside_keeps.
    - rewrite <- lookup_node_nonnil by exact Hne.
      eapply wf_ancestors; [exact Hwf | exact Hbase | |].
      + apply prefix_app_r, prefix_take.
      + intros E. apply (f_equal length) in E.
        rewrite length_take, length_app in E. simpl in E. lia.
    - intros Hp. apply prefix_length in Hp.
      rewrite length_take, length_app in Hp. simpl in Hp. lia. }
  eexists. split; [|split; [|split]].
  - unfold _rollback, bind, path_exists.
    fold backup. unfold FS.exists_.
    rewrite lookup_node_nonnil, Hbackup by exact Hbackup_ne.
    unfold fs_op at 1. fold base. unfold FS.rmtree.
    rewrite lookup_node_nonnil, Hbase by exact Hbase_ne.
    unfold fs_op at 1.
    change (resolve (set_fs (filter (FS.outside base) (fs w)) w) (backup_dir ctx)) with backup.
    change (resolve (set_fs (filter (FS.outside base) (fs w)) w) (base_dir ctx)) with base.
    change (fs (set_fs (filter (FS.outside base) (fs w)) w)) with f1.
    unfold FS.copytree, FS.exists_.
    rewrite !lookup_node_nonnil, Hf1_backup, Hf1_base by assumption.
    rewrite decide_False by exact Hnp.
    rewrite Hmk. simpl. unfold logger_info. reflexivity.
  - reflexivity.
  - intros r. simpl.
    assert (f1 !! (backup ++ r) = fs w !! (backup ++ r)) as Hsame.
    { unfold f1. apply filter_outside_keeps. intros Hp.
      destruct (prefix_weak_total base backup (backup ++ r) Hp) as [?|?];
        [now apply prefix_app_r | tauto | tauto]. }
    destruct (fs w !! (backup ++ r)) as [v|] eqn:Hv.
    + rewrite lookup_union_l'; rewrite reroot_lookup, Hsame; eauto.
    + rewrite lookup_union_r by (now rewrite reroot_lookup, Hsame).
      destruct r as [|c r].
      { rewrite app_nil_r in Hv. congruence. }
      rewrite lookup_insert_ne.
      * unfold f1. apply filter_outside_drops. now apply prefix_app_r.
      * intros E. rewrite <- (app_nil_r base) in E at 1.
        apply app_inv_head in E. discriminate.
  - intros k Hk. simpl.
    rewrite lookup_union_r by (now apply reroot_lookup_outside).
    rewrite lookup_insert_ne by (intros <-; now apply Hk).
    unfold f1. now apply filter_outside_keeps.
Qed.

End Tree.

(** ** The backup step, the rollback and the report on concrete runs *)

Lemma makedirs_from_files f done todo f' :
  FS.makedirs_from f done todo = Val f' ->
  forall k c, f' !! k = Some (FS.File c) -> f !! k = Some (FS.File c).
Proof.
  revert f done. induction todo as [|c todo IH]; intros f done H k content Hk.
  - simpl in H. injection H as <-. exact Hk.
  - simpl in H.
    destruct (FS.lookup_node f (done ++ [c])) as [[|?]|] eqn:Hnode;
      [eauto | discriminate |].
    specialize (IH _ _ H k content Hk).
    destruct (decide (done ++ [c] = k)) as [<- | Hne].
    + rewrite lookup_insert_eq in IH. discriminate.
    + now rewrite lookup_insert_ne in IH.
Qed.

(** The backup step never produces a file: a file in the tree after it
    was there, with that content, before it. *)
Lemma backup_step_creates_no_file ctx w w' :
  create_backup_directory ctx w = Return tt w' ->
  forall k c, fs w' !! k = Some (FS.File c) -> fs w !! k = Some (FS.File c).
Proof.
  unfold create_backup_directory, bind, lift, fs_op.
  destruct (config_get ctx "migration" "backup_enabled") as [v|]; [|discriminate].
  destruct (Yaml.truthy v).
  - destruct (FS.makedirs (fs w) (resolve w (backup_dir ctx))) as [f|] eqn:Hmk;
      [|discriminate].
    intros [= <-]. simpl. now apply makedirs_from_files with (done := []) (todo := resolve w (backup_dir ctx)).
  - intros [= <-]. auto.
Qed.

(** The backup step fails when the directory cannot be created, and
    then leaves the world as it was. *)
Lemma backup_step_failure ctx w enabled e :
  config_get ctx "migration" "backup_enabled" = Val enabled ->
  Yaml.truthy enabled = true ->
  FS.makedirs (fs w) (resolve w (backup_dir ctx)) = Err e ->
  create_backup_directory ctx w = Raise e w.
Proof.
  intros Hcfg Hen Hmk. unfold create_backup_directory, bind, lift, fs_op.
  now rewrite Hcfg, Hen, Hmk.
Qed.

(** C1 on a concrete project: with backup enabled, validation and the
    backup step leave the seven files where they were and add one empty
    directory, [/proj/backup]; no file of the project has a copy under
    it when processing starts. *)
Theorem backup_step_takes_no_snapshot :
  let ctx := Scenario.context
               (Scenario.configuration "backup" ["*.java"; "*.xml"; "*.txt"] 3 true true) in
  let w := Scenario.world Scenario.tree in
  MigrationManager_init
    (Scenario.configuration "backup" ["*.java"; "*.xml"; "*.txt"] 3 true true) "/proj"
    = Val ctx /\
  backup_dir ctx = Path.of_string "/proj/backup" /\
  exists w',
    (validate_paths ctx ;;; create_backup_directory ctx) w = Return tt w' /\
    fs w' = <[ ["proj"; "backup"] := FS.Dir ]> Scenario.tree /\
    fs w' !! ["proj"; "A.java"] = Some (FS.File "class A {}") /\
    fs w' !! ["proj"; "backup"; "A.java"] = None /\
    filter (FS.under ["proj"; "backup"]) (fs w') = {[ ["proj"; "backup"] := FS.Dir ]}.
Proof.
  intros ctx w. split; [vm_compute; reflexivity|].
  split; [vm_compute; reflexivity|].
  eexists. split; [vm_compute; reflexivity|].
  repeat split; vm_compute; reflexivity.
Qed.

(** C2 on a concrete project: the backup directory [/proj/backup]
    holds a copy of every entry of the project, processing fails on a
    zero batch size, and rollback is enabled.  The rollback removes
    [/proj] together with the backup inside it, the copy back then fails
    for want of its source, and the run ends with that error and without
    any project directory. *)
Theorem rollback_destroys_inner_backup :
  let ctx := Scenario.context
               (Scenario.configuration "backup" ["*.java"; "*.xml"; "*.txt"] 0 true true) in
  let w := Scenario.world Scenario.tree_with_inner_snapshot in
  MigrationManager_init
    (Scenario.configuration "backup" ["*.java"; "*.xml"; "*.txt"] 0 true true) "/proj"
    = Val ctx /\
  backup_dir ctx = Path.of_string "/proj/backup" /\
  map_Forall (fun k v => fs w !! (["proj"; "backup"] ++ drop 1 k) = Some v) Scenario.tree /\
  (exists w1,
      migration_steps Glob.glob Glob.path_match Glob.pass Glob.pass Glob.pass ctx w =
        Raise (ValueError "range() arg 3 must not be zero") w1 /\
      fs w1 = fs w) /\
  exists w',
    execute_migration Glob.glob Glob.path_match Glob.pass Glob.pass Glob.pass ctx w =
      Raise (FileNotFoundError "/proj/backup") w' /\
    fs w' = ∅ /\
    FS.exists_ (fs w') ["proj"] = false.
Proof.
  intros ctx w. split; [vm_compute; reflexivity|].
  split; [vm_compute; reflexivity|].
  split; [compute_done|].
  split; eexists; (split; [vm_compute; reflexivity|]); repeat split; vm_compute; reflexivity.
Qed.

(** For contrast, the same failure with the backup kept outside the
    project, under [/backups/proj], the case [rollback_restores] covers:
    the rollback puts every entry of the snapshot back and the original
    error is the one raised. *)
Lemma rollback_from_outer_backup :
  let ctx := Scenario.context
               (Scenario.configuration "/backups/proj" ["*.java"; "*.xml"; "*.txt"] 0 true true) in
  let w := Scenario.world Scenario.tree_with_outer_snapshot in
  backup_dir ctx = Path.of_string "/backups/proj" /\
  exists w',
    execute_migration Glob.glob Glob.path_match Glob.pass Glob.pass Glob.pass ctx w =
      Raise (ValueError "range() arg 3 must not be zero") w' /\
    filter (FS.under ["proj"]) (fs w') = Scenario.tree.
Proof.
  intros ctx w. split; [vm_compute; reflexivity|].
  eexists. split; vm_compute; reflexivity.
Qed.

(** C3 on the end-to-end scenario: seven files are discovered and
    submitted in batches of three, the transformer fails on [B.java], and
    both failure records are logged.  The report the code builds
    nevertheless says that no file was processed and lists no error; and
    writing it raises [NameError], since [json] is never imported, so
    the report file is left empty and the run ends as failed. *)
Theorem report_ignores_the_run :
  let ctx := Scenario.context
               (Scenario.configuration "backup" ["*.java"; "*.xml"; "*.txt"] 3 false false) in
  let w := Scenario.world Scenario.tree in
  let e := RuntimeError "cannot transform" in
  MigrationManager_init
    (Scenario.configuration "backup" ["*.java"; "*.xml"; "*.txt"] 3 false false) "/proj"
    = Val ctx /\
  exists w1,
    process_files Glob.glob Glob.path_match (Scenario.fail_on "B.java")
                  Glob.pass Glob.pass ctx w = Return tt w1 /\
    submitted w1 = Scenario.discovered /\
    length (submitted w1) = 7%nat /\
    log w1 = [file_error (Scenario.proj // "B.java") e; future_error e] /\
    (exists report,
        build_report ctx w1 = Val report /\
        files_processed report = 0 /\
        errors report = [] /\
        status report = "completed") /\
    exists w2,
      _generate_report ctx w1 = Raise (NameError "json") w2 /\
      fs w2 !! resolve w1 (report_file ctx w1) = Some (FS.File "") /\
      execute_migration Glob.glob Glob.path_match (Scenario.fail_on "B.java")
                        Glob.pass Glob.pass ctx w =
        Raise (NameError "json")
              (add_log "ERROR" "Migration failed: name 'json' is not defined" w2).
Proof.
  intros ctx w e.
  split; [vm_compute; reflexivity|].
  eexists. split; [vm_compute; reflexivity|].
  split; [vm_compute; reflexivity|].
  split; [vm_compute; reflexivity|].
  split; [vm_compute; reflexivity|].
  split.
  - eexists. split; [vm_compute; reflexivity|]. repeat split.
  - eexists. split; [vm_compute; reflexivity|].
    split; vm_compute; reflexivity.
Qed.

(** * Further properties of the code *)
(** ** More on size strings *)

Section SizeStrings.

Import Str.











End SizeStrings.




(** ** More on the configuration *)

Lemma check_sections_keys cfg cfg' sections :
  dom cfg = dom cfg' -> check_sections cfg' sections = check_sections cfg sections.
Proof.
  intros Hdom. induction sections as [|s l IH]; simpl; [reflexivity|].
  assert (is_Some (cfg !! s) <-> is_Some (cfg' !! s)) as Hs.
  { rewrite <- !elem_of_dom, Hdom. reflexivity. }
  destruct (cfg !! s) as [v|] eqn:Hv, (cfg' !! s) as [v'|] eqn:Hv'; try exact IH.
  - destruct Hs as [Hs _]. destruct Hs as [? ?]; [eauto | discriminate].
  - destruct Hs as [_ Hs]. destruct Hs as [? ?]; [eauto | discriminate].
  - reflexivity.
Qed.

Lemma check_sections_first cfg before s after :
  Forall (fun t => is_Some (cfg !! t)) before ->
  cfg !! s = None ->
  check_sections cfg (before ++ s :: after) =
    Err (ValueError ("Missing required configuration section: " +:+ s)).
Proof.
  induction 1 as [|t l [v Hv] _ IH]; intros Hs; simpl.
  - now rewrite Hs.
  - rewrite Hv. auto.
Qed.

(** X3: validation looks at the keys of the document only, never at
    what the sections hold, and the section it names is the first
    missing one in the order paths, files, patterns, migration,
    logging. *)
Theorem validation_checks_presence_in_order (cfg : gmap string Yaml.t) :
  (forall cfg' : gmap string Yaml.t,
      dom cfg = dom cfg' -> _validate_config cfg' = _validate_config cfg) /\
  (forall before s after,
      required_sections = before ++ s :: after ->
      Forall (fun t => is_Some (cfg !! t)) before ->
      cfg !! s = None ->
      _validate_config cfg =
        Err (ValueError ("Missing required configuration section: " +:+ s))).
Proof.
  split.
  - intros cfg' Hdom. now apply check_sections_keys.
  - intros before s after Hreq Hbefore Hs.
    unfold _validate_config. rewrite Hreq. now apply check_sections_first.
Qed.

Lemma validation_checks_presence_in_order_witness :
  _validate_config ((fun _ => Yaml.Null) <$>
                      Scenario.configuration "backup" ["*.java"] 3 true true) =
    _validate_config (Scenario.configuration "backup" ["*.java"] 3 true true) /\
  _validate_config Documents.without_files_and_logging =
    Err (ValueError "Missing required configuration section: files").
Proof.
  split.
  - apply (proj1 (validation_checks_presence_in_order _)).
    now rewrite dom_fmap_L.
  - apply (proj2 (validation_checks_presence_in_order _) ["paths"] "files"
             ["patterns"; "migration"; "logging"]).
    + reflexivity.
    + repeat constructor. vm_compute. eauto.
    + vm_compute. reflexivity.
Defined.

Section UpdatePaths.

Variable cfg : gmap string Yaml.t.
Variable m : gmap string Yaml.t.
Variable base : string.

Hypothesis Hpaths : cfg !! "paths" = Some (Yaml.Map m).

Lemma joinable_all :
  string_paths m ->
  forallb joinable (map_to_list (<["base_dir" := Yaml.Str base]> m)) = true.
Proof.
  intros Hm. apply forallb_forall. intros [k v] Hin.
  apply list_elem_of_In, elem_of_map_to_list in Hin.
  unfold joinable. simpl.
  destruct (String.eqb_spec k "base_dir") as [-> | Hk]; [reflexivity|].
  rewrite lookup_insert_ne in Hin by congruence.
  destruct (Hm _ _ Hin Hk) as [s ->]. reflexivity.
Qed.

Lemma joinable_some k v :
  m !! k = Some v -> k <> "base_dir" -> Yaml.is_str v = false ->
  forallb joinable (map_to_list (<["base_dir" := Yaml.Str base]> m)) = false.
Proof.
  intros Hk Hne Hv.
  destruct (forallb joinable _) eqn:Hall; [|reflexivity].
  rewrite forallb_forall in Hall.
  specialize (Hall (k, v)). unfold joinable in Hall. simpl in Hall.
  rewrite Hv, orb_false_r in Hall.
  apply String.eqb_neq in Hne. rewrite Hne in Hall. symmetry. apply Hall.
  apply list_elem_of_In, elem_of_map_to_list. rewrite lookup_insert_ne; [exact Hk|].
  intros <-. discriminate.
Qed.

(** X4: [update_paths] on a [paths] section whose entries are strings
    returns the document with that section alone changed: [base_dir] is
    the given directory, whatever the document said, and every other
    entry is [os.path.join] of the directory and the configured text, so
    an absolute entry stays as it is.  No key is added or lost but
    [base_dir]. An entry that is not a string makes it raise
    [TypeError]. *)
Theorem update_paths_joins_entries :
  (string_paths m ->
   exists m',
     update_paths cfg base = Val (<["paths" := Yaml.Map m']> cfg) /\
     m' !! "base_dir" = Some (Yaml.Str base) /\
     (forall k, k <> "base_dir" ->
        m' !! k = match m !! k with
                  | Some (Yaml.Str s) => Some (Yaml.Str (Path.os_path_join base s))
                  | other => other
                  end) /\
     (forall k s, m !! k = Some (Yaml.Str s) -> k <> "base_dir" ->
        Path.starts_with_slash s = true -> m' !! k = Some (Yaml.Str s))) /\
  (forall k v, m !! k = Some v -> k <> "base_dir" -> Yaml.is_str v = false ->
     update_paths cfg base = Err (TypeError "expected str, bytes or os.PathLike object")).
Proof.
  split.
  - intros Hm.
    exists (map_imap (update_entry base) (<["base_dir" := Yaml.Str base]> m)).
    assert (forall k, k <> "base_dir" ->
              map_imap (update_entry base) (<["base_dir" := Yaml.Str base]> m) !! k =
              match m !! k with
              | Some (Yaml.Str s) => Some (Yaml.Str (Path.os_path_join base s))
              | other => other
              end) as Hother.
    { intros k Hk. rewrite map_lookup_imap, lookup_insert_ne by congruence.
      destruct (m !! k) as [v|]; [|reflexivity]. simpl. unfold update_entry.
      replace (String.eqb k "base_dir") with false
        by (symmetry; now apply String.eqb_neq).
      now destruct v. }
    split; [|split; [|split]].
    + unfold update_paths. now rewrite Hpaths, (joinable_all Hm).
    + rewrite map_lookup_imap, lookup_insert_eq. reflexivity.
    + exact Hother.
    + intros k s Hk Hne Habs. rewrite (Hother k Hne), Hk.
      unfold Path.os_path_join. now rewrite Habs.
  - intros k v Hk Hne Hv. unfold update_paths.
    now rewrite Hpaths, (joinable_some k v Hk Hne Hv).
Qed.

End UpdatePaths.

Lemma update_paths_joins_entries_witness :
  (exists m',
      update_paths Documents.with_paths "/proj" =
        Val (<["paths" := Yaml.Map m']> Documents.with_paths) /\
      m' !! "reports" = Some (Yaml.Str "/proj/out/reports") /\
      m' !! "archive" = Some (Yaml.Str "/var/archive")) /\
  update_paths Documents.with_numeric_path "/proj" =
    Err (TypeError "expected str, bytes or os.PathLike object").
Proof.
  split.
  - destruct (proj1 (update_paths_joins_entries Documents.with_paths
                       Documents.three_paths "/proj" ltac:(vm_compute; reflexivity)))
      as (m' & Hup & _ & Hjoin & Habs).
    + intros k v Hk _. unfold Documents.three_paths in Hk. simpl in Hk.
      rewrite !lookup_insert in Hk.
      repeat case_decide; first [injection Hk as <-; eauto | now rewrite lookup_empty in Hk].
    + exists m'. split; [exact Hup|]. split.
      * rewrite (Hjoin "reports") by discriminate. vm_compute. reflexivity.
      * apply (Habs "archive"); [vm_compute; reflexivity | discriminate | reflexivity].
  - apply (proj2 (update_paths_joins_entries Documents.with_numeric_path
                    Documents.numeric_path "/proj"
                    ltac:(vm_compute; reflexivity)) "backup_dir" (Yaml.Int 7));
      [vm_compute; reflexivity | discriminate | reflexivity].
Defined.

(** ** Path arithmetic *)

Section PathJoin.

Import Path.

Lemma append_cons c s t : String c s +:+ t = String c (s +:+ t).
Proof. reflexivity. Qed.

Lemma append_assoc_str s t u : (s +:+ t) +:+ u = s +:+ t +:+ u.
Proof.
  induction s as [|c s IH]; [reflexivity|].
  rewrite !append_cons. now f_equal.
Qed.

Lemma split_slash_nonempty s : split_slash s <> [].
Proof.
  destruct s as [|c s]; simpl; [discriminate|].
  destruct (Ascii.eqb c slash); [discriminate|].
  destruct (split_slash s); discriminate.
Qed.

Lemma split_slash_join a b :
  split_slash (a +:+ String slash b) = split_slash a ++ split_slash b.
Proof.
  induction a as [|c a IH].
  - change ("" +:+ String slash b) with (String slash b). reflexivity.
  - rewrite append_cons. cbn [split_slash]. rewrite IH.
    destruct (Ascii.eqb c slash); [reflexivity|].
    pose proof (split_slash_nonempty a).
    destruct (split_slash a) as [|h t]; [congruence | reflexivity].
Qed.

Lemma ends_with_slash_inv a :
  ends_with_slash a = true -> exists a', a = a' +:+ String slash "".
Proof.
  induction a as [|c a IH]; [discriminate|].
  destruct a as [|d a].
  - simpl. intros Hc. apply Ascii.eqb_eq in Hc as ->. now exists "".
  - intros H. destruct IH as [a' Ha']; [exact H|].
    exists (String c a'). rewrite append_cons. now f_equal.
Qed.

Lemma starts_with_slash_append a b :
  a <> "" -> starts_with_slash (a +:+ b) = starts_with_slash a.
Proof. destruct a; [congruence | reflexivity]. Qed.

Lemma parts_join a b :
  parts (of_string (a +:+ String slash b)) = parts (of_string a) ++ parts (of_string b).
Proof. unfold of_string. simpl. now rewrite split_slash_join, List.filter_app. Qed.

(** [os.path.join] and the [/] of [pathlib] agree. *)
Lemma of_string_os_path_join a b :
  of_string (os_path_join a b) = of_string a // b.
Proof.
  unfold os_path_join, truediv.
  destruct (starts_with_slash b) eqn:Hb.
  - unfold of_string at 2. simpl. now rewrite Hb.
  - replace (absolute (of_string b)) with false by (now unfold of_string; simpl).
    destruct (String.eqb_spec a "") as [-> | Ha].
    + simpl. change ("" +:+ b) with b. unfold of_string. simpl. now rewrite Hb.
    + simpl. destruct (ends_with_slash a) eqn:He.
      * destruct (ends_with_slash_inv a He) as [a' ->].
        unfold of_string at 1. cbn [absolute parts].
        rewrite starts_with_slash_append by exact Ha.
        f_equal. rewrite append_assoc_str.
        change (String slash "" +:+ b) with (String slash b).
        pose proof (parts_join a' b) as H1. pose proof (parts_join a' "") as H2.
        unfold of_string in H1, H2. simpl in H1, H2.
        rewrite H1, H2. simpl. now rewrite app_nil_r.
      * unfold of_string at 1. cbn [absolute parts].
        rewrite starts_with_slash_append by exact Ha.
        f_equal. change ("/" +:+ b) with (String slash b).
        pose proof (parts_join a b) as H1.
        unfold of_string in H1. simpl in H1. exact H1.
Qed.

Lemma double_join base s :
  absolute (of_string base // os_path_join base s) =
    starts_with_slash s || starts_with_slash base /\
  parts (of_string base // os_path_join base s) =
    if starts_with_slash s then parts (of_string s)
    else if starts_with_slash base
    then parts (of_string base) ++ parts (of_string s)
    else parts (of_string base) ++ parts (of_string base) ++ parts (of_string s).
Proof.
  unfold truediv. cbv zeta. rewrite of_string_os_path_join.
  unfold truediv. cbv zeta.
  assert (absolute (of_string s) = starts_with_slash s) as -> by reflexivity.
  assert (absolute (of_string base) = starts_with_slash base) as Hb by reflexivity.
  destruct (starts_with_slash s) eqn:Hs.
  - assert (absolute (of_string s) = true) as -> by exact Hs. auto.
  - cbn [absolute parts]. rewrite Hb.
    destruct (starts_with_slash base); cbn [absolute parts]; auto.
Qed.

End PathJoin.

(** ** Construction of the migration manager *)

Lemma setup_logging_other_section cfg key v :
  key <> "logging" -> setup_logging (<[key := v]> cfg) = setup_logging cfg.
Proof.
  intros Hk. unfold setup_logging. simpl. now rewrite lookup_insert_ne.
Qed.

(** X5: when the migration manager is constructed, its base directory
    is the project directory given, and its backup directory is that
    directory joined with the [backup_dir] entry after [update_paths] has
    already joined the entry to it.  An absolute entry is used as it is;
    under an absolute project directory a relative entry lies inside the
    project; under a relative project directory the project directory
    occurs twice in the result. *)
Theorem constructed_backup_dir cfg base ctx :
  MigrationManager_init cfg base = Val ctx ->
  base_dir ctx = Path.of_string base /\
  exists m s,
    cfg !! "paths" = Some (Yaml.Map m) /\
    m !! "backup_dir" = Some (Yaml.Str s) /\
    backup_dir ctx = Path.of_string base // Path.os_path_join base s /\
    Path.absolute (backup_dir ctx) =
      Path.starts_with_slash s || Path.starts_with_slash base /\
    Path.parts (backup_dir ctx) =
      if Path.starts_with_slash s then Path.parts (Path.of_string s)
      else if Path.starts_with_slash base
      then Path.parts (Path.of_string base) ++ Path.parts (Path.of_string s)
      else Path.parts (Path.of_string base) ++ Path.parts (Path.of_string base) ++
           Path.parts (Path.of_string s).
Proof.
  unfold MigrationManager_init, ConfigurationManager_init.
  destruct (_validate_config cfg) as [[]|]; [simpl|discriminate].
  unfold update_paths.
  destruct (cfg !! "paths") as [[| | | | |m]|] eqn:Hp; try discriminate.
  destruct (forallb joinable _) eqn:Hall; [simpl|discriminate].
  destruct (setup_logging _) as [[]|]; [simpl|discriminate].
  rewrite lookup_insert_eq. simpl.
  rewrite map_lookup_imap, lookup_insert_ne by discriminate.
  destruct (m !! "backup_dir") as [v|] eqn:Hbd; [|discriminate].
  simpl. destruct v as [| | |s| |]; try discriminate.
  simpl. intros [= <-]. simpl. split; [reflexivity|].
  exists m, s. split; [reflexivity|]. split; [exact Hbd|]. split; [reflexivity|].
  apply double_join.
Qed.

Lemma constructed_backup_dir_witness :
  (exists ctx,
      MigrationManager_init (Scenario.configuration "backup" ["*.java"] 3 true true)
                            "work/proj" = Val ctx /\
      Path.parts (backup_dir ctx) = ["work"; "proj"; "work"; "proj"; "backup"]) /\
  (exists ctx,
      MigrationManager_init (Scenario.configuration "backup" ["*.java"] 3 true true)
                            "/proj" = Val ctx /\
      Path.parts (backup_dir ctx) = ["proj"; "backup"]).
Proof.
  split.
  - eexists. split; [vm_compute; reflexivity|].
    destruct (constructed_backup_dir
                (Scenario.configuration "backup" ["*.java"] 3 true true) "work/proj" _
                ltac:(vm_compute; reflexivity))
      as (_ & m & s & Hm & Hs & _ & _ & Hparts).
    vm_compute in Hm. injection Hm as <-. vm_compute in Hs. injection Hs as <-.
    rewrite Hparts. vm_compute. reflexivity.
  - eexists. split; [vm_compute; reflexivity|].
    destruct (constructed_backup_dir
                (Scenario.configuration "backup" ["*.java"] 3 true true) "/proj" _
                ltac:(vm_compute; reflexivity))
      as (_ & m & s & Hm & Hs & _ & _ & Hparts).
    vm_compute in Hm. injection Hm as <-. vm_compute in Hs. injection Hs as <-.
    rewrite Hparts. vm_compute. reflexivity.
Defined.

(** X6: construction needs the [backup_dir] entry whether or not
    backups are enabled: on a document that passes validation, whose
    [paths] entries are strings and whose logging settings are accepted,
    but whose [paths] section has no [backup_dir], it raises
    [KeyError]. *)
Theorem construction_requires_backup_dir cfg base m :
  _validate_config cfg = Val tt ->
  cfg !! "paths" = Some (Yaml.Map m) ->
  string_paths m ->
  m !! "backup_dir" = None ->
  setup_logging cfg = Val tt ->
  MigrationManager_init cfg base = Err (KeyError "backup_dir").
Proof.
  intros Hv Hp Hm Hbd Hlog.
  unfold MigrationManager_init, ConfigurationManager_init. rewrite Hv. simpl.
  unfold update_paths. rewrite Hp, (joinable_all m base Hm). simpl.
  rewrite setup_logging_other_section, Hlog by discriminate. simpl.
  rewrite lookup_insert_eq. simpl.
  rewrite map_lookup_imap, lookup_insert_ne, Hbd by discriminate.
  reflexivity.
Qed.

Lemma construction_requires_backup_dir_witness :
  config_get (mkContext Documents.without_backup_dir Scenario.proj Scenario.proj)
             "migration" "backup_enabled" = Val (Yaml.Bool false) /\
  MigrationManager_init Documents.without_backup_dir "/proj" =
    Err (KeyError "backup_dir").
Proof.
  split; [vm_compute; reflexivity|].
  apply (construction_requires_backup_dir Documents.without_backup_dir "/proj"
           (list_to_map [("reports", Yaml.Str "out/reports")] : gmap string Yaml.t)).
  - vm_compute. reflexivity.
  - vm_compute. reflexivity.
  - intros k v Hk _. simpl in Hk. rewrite !lookup_insert in Hk.
    repeat case_decide; first [injection Hk as <-; eauto | now rewrite lookup_empty in Hk].
  - vm_compute. reflexivity.
  - vm_compute. reflexivity.
Defined.

(** X7: the log size of the configuration goes through [parse_size]
    during construction: on a document that passes validation, whose
    [paths] entries are strings and whose logging section names a log
    file and a level, a size text that [parse_size] rejects makes the
    construction raise the error of [parse_size]. *)
Theorem construction_parses_log_size cfg base m logging level size e :
  _validate_config cfg = Val tt ->
  cfg !! "paths" = Some (Yaml.Map m) ->
  string_paths m ->
  cfg !! "logging" = Some (Yaml.Map logging) ->
  is_Some (logging !! "file") ->
  logging !! "level" = Some (Yaml.Str level) ->
  level ∈ level_names ->
  logging !! "max_size" = Some (Yaml.Str size) ->
  parse_size size = Err e ->
  MigrationManager_init cfg base = Err e.
Proof.
  intros Hv Hp Hm Hl [f Hf] Hlev Hin Hsize He.
  unfold MigrationManager_init, ConfigurationManager_init. rewrite Hv. simpl.
  unfold update_paths. rewrite Hp, (joinable_all m base Hm). simpl.
  rewrite setup_logging_other_section by discriminate.
  unfold setup_logging. simpl. rewrite Hl. simpl. rewrite Hf. simpl.
  rewrite Hlev. simpl. rewrite bool_decide_eq_true_2 by exact Hin. simpl.
  rewrite Hsize. simpl. rewrite He. reflexivity.
Qed.

Lemma construction_parses_log_size_witness :
  MigrationManager_init Documents.with_unknown_size_unit "/proj" = Err (KeyError "XB").
Proof.
  apply (construction_parses_log_size Documents.with_unknown_size_unit "/proj"
           (Documents.backup_path_section "backup")
           (Documents.logging_section "10XB") "INFO" "10XB").
  - vm_compute. reflexivity.
  - vm_compute. reflexivity.
  - intros k v Hk _. unfold Documents.backup_path_section in Hk. simpl in Hk.
    rewrite !lookup_insert in Hk.
    repeat case_decide; first [injection Hk as <-; eauto | now rewrite lookup_empty in Hk].
  - vm_compute. reflexivity.
  - vm_compute. eauto.
  - vm_compute. reflexivity.
  - compute_done.
  - vm_compute. reflexivity.
  - vm_compute. reflexivity.
Defined.

(** ** Validation of the paths *)

(** X8: with the two file names configured, [validate_paths] returns
    normally when the base directory, the project descriptor and the
    Struts descriptor all exist, and otherwise raises [ValueError] naming
    the first of them, in that order, that does not; the world is left
    as it was either way.  When a file name is not configured the lookup
    error is raised before anything is checked. *)
Theorem validate_paths_names_first_missing ctx w :
  (forall pom struts_config,
      config_get ctx "files" "pom" = Val (Yaml.Str pom) ->
      config_get ctx "files" "struts_config" = Val (Yaml.Str struts_config) ->
      validate_paths ctx w =
        match List.find (missing w) (required_paths ctx pom struts_config) with
        | None => Return tt w
        | Some path =>
            Raise (ValueError ("Required path does not exist: " +:+ Path.to_string path)) w
        end) /\
  (forall e, config_get ctx "files" "pom" = Err e -> validate_paths ctx w = Raise e w).
Proof.
  split.
  - intros pom struts_config Hpom Hstruts.
    unfold validate_paths, files_entry, bind, lift. rewrite Hpom, Hstruts. simpl.
    unfold bind, path_exists, missing.
    destruct (FS.exists_ (fs w) (resolve w (base_dir ctx))); [|reflexivity].
    simpl. destruct (FS.exists_ (fs w) (resolve w (base_dir ctx // pom))); [|reflexivity].
    simpl. destruct (FS.exists_ (fs w) (resolve w (base_dir ctx // struts_config)));
      reflexivity.
  - intros e He. unfold validate_paths, files_entry, bind, lift. now rewrite He.
Qed.

Lemma validate_paths_names_first_missing_witness :
  let ctx := Scenario.context (Scenario.configuration "backup" ["*.java"] 3 true true) in
  validate_paths ctx (Scenario.world Trees.without_struts_config) =
    Raise (ValueError "Required path does not exist: /proj/struts-config.xml")
          (Scenario.world Trees.without_struts_config) /\
  validate_paths ctx (Scenario.world Scenario.tree) = Return tt (Scenario.world Scenario.tree).
Proof.
  intros ctx. split.
  - rewrite (proj1 (validate_paths_names_first_missing ctx _) "pom.xml" "struts-config.xml");
      vm_compute; reflexivity.
  - rewrite (proj1 (validate_paths_names_first_missing ctx _) "pom.xml" "struts-config.xml");
      vm_compute; reflexivity.
Defined.

(** ** The backup step *)

Section Makedirs.

Implicit Types (f : FS.t) (done todo q k : list string).

Lemma makedirs_from_adds todo : forall f done f',
  FS.makedirs_from f done todo = Val f' ->
  forall k, f' !! k = f !! k \/
            (f !! k = None /\ f' !! k = Some FS.Dir /\
             k `prefix_of` done ++ todo /\ (length done < length k)%nat).
Proof.
  induction todo as [|c r IH]; intros f done f' H k.
  - simpl in H. injection H as <-. now left.
  - simpl in H.
    destruct (FS.lookup_node f (done ++ [c])) as [[|?]|] eqn:Hnode; [|discriminate|].
    + destruct (IH _ _ _ H k) as [Hk | (Hn & Hd & Hp & Hl)]; [now left|].
      right. rewrite <- app_assoc in Hp. rewrite length_app in Hl. simpl in Hl.
      repeat split; try assumption. lia.
    + assert (f !! (done ++ [c]) = None) as Hnone.
      { destruct (done ++ [c]) eqn:E; [destruct done; discriminate | exact Hnode]. }
      destruct (decide (k = done ++ [c])) as [-> | Hne].
      * right. destruct (IH _ _ _ H (done ++ [c])) as [Hk | (Hn & _)].
        -- rewrite lookup_insert_eq in Hk. repeat split; try assumption.
           ++ apply prefix_app, prefix_cons, prefix_nil.
           ++ rewrite length_app. simpl. lia.
        -- rewrite lookup_insert_eq in Hn. discriminate.
      * destruct (IH _ _ _ H k) as [Hk | (Hn & Hd & Hp & Hl)];
          rewrite lookup_insert_ne in * by congruence.
        -- now left.
        -- right. rewrite <- app_assoc in Hp. rewrite length_app in Hl. simpl in Hl.
           repeat split; try assumption. lia.
Qed.

Lemma makedirs_from_made todo : forall f done f',
  FS.makedirs_from f done todo = Val f' ->
  FS.lookup_node f done = Some FS.Dir ->
  FS.lookup_node f' (done ++ todo) = Some FS.Dir.
Proof.
  induction todo as [|c r IH]; intros f done f' H Hdone.
  - simpl in H. injection H as <-. now rewrite app_nil_r.
  - simpl in H. replace (done ++ c :: r) with ((done ++ [c]) ++ r)
      by (now rewrite <- app_assoc).
    destruct (FS.lookup_node f (done ++ [c])) as [[|?]|] eqn:Hnode; [|discriminate|].
    + now apply (IH _ _ _ H).
    + apply (IH _ _ _ H).
      destruct (done ++ [c]) eqn:E; [destruct done; discriminate|].
      simpl. now rewrite lookup_insert_eq.
Qed.

Lemma makedirs_from_blocked todo : forall f done q c,
  q `prefix_of` done ++ todo -> (length done < length q)%nat ->
  f !! q = Some (FS.File c) ->
  FS.makedirs_from f done todo = Err (FileExistsError (FS.render (done ++ todo))) \/
  FS.makedirs_from f done todo = Err (NotADirectoryError (FS.render (done ++ todo))).
Proof.
  induction todo as [|c0 r IH]; intros f done q c Hq Hlen Hfile.
  - rewrite app_nil_r in Hq. apply prefix_length in Hq. lia.
  - assert (done ++ [c0] <> []) as Hne by (destruct done; discriminate).
    assert (forall g, FS.lookup_node g (done ++ [c0]) = g !! (done ++ [c0])) as Hlook.
    { intros g. destruct (done ++ [c0]); [congruence | reflexivity]. }
    replace (done ++ c0 :: r) with ((done ++ [c0]) ++ r) in * by (now rewrite <- app_assoc).
    destruct (decide (q = done ++ [c0])) as [-> | Hneq].
    + simpl. rewrite Hlook, Hfile.
      destruct r; [left; now rewrite app_nil_r | right; reflexivity].
    + assert (done ++ [c0] `prefix_of` q /\ (length (done ++ [c0]) < length q)%nat)
        as [Hpq Hlt].
      { destruct (prefix_weak_total (done ++ [c0]) q ((done ++ [c0]) ++ r)) as [Hp | Hp];
          [now apply prefix_app_r | exact Hq | |].
        - split; [exact Hp|]. pose proof (prefix_length _ _ Hp) as Hle.
          destruct (decide (length (done ++ [c0]) = length q)) as [Heq|]; [|lia].
          exfalso. apply Hneq. symmetry. apply prefix_length_eq; [exact Hp | lia].
        - exfalso. apply Hneq. apply prefix_length_eq; [exact Hp|].
          rewrite length_app. simpl. lia. }
      simpl. rewrite Hlook.
      destruct (f !! (done ++ [c0])) as [[|?]|] eqn:Hnode.
      * now apply (IH f (done ++ [c0]) q c).
      * destruct r; [left; now rewrite app_nil_r | right; reflexivity].
      * apply (IH _ (done ++ [c0]) q c); try assumption.
        now rewrite lookup_insert_ne by congruence.
Qed.

Lemma makedirs_from_free todo : forall f done,
  (forall q c, q `prefix_of` done ++ todo -> (length done < length q)%nat ->
               f !! q <> Some (FS.File c)) ->
  exists f', FS.makedirs_from f done todo = Val f'.
Proof.
  induction todo as [|c0 r IH]; intros f done Hfree.
  - eexists. reflexivity.
  - assert (FS.lookup_node f (done ++ [c0]) = f !! (done ++ [c0])) as Hlook.
    { destruct (done ++ [c0]) eqn:E; [destruct done; discriminate | reflexivity]. }
    simpl. rewrite Hlook.
    destruct (f !! (done ++ [c0])) as [[|content]|] eqn:Hnode.
    + apply IH. intros q c Hq Hl. rewrite <- app_assoc in Hq.
      apply Hfree; [exact Hq|]. rewrite length_app in Hl. simpl in Hl. lia.
    + exfalso. apply (Hfree (done ++ [c0]) content); [| |exact Hnode].
      * apply prefix_app, prefix_cons, prefix_nil.
      * rewrite length_app. simpl. lia.
    + apply IH. intros q c Hq Hl. rewrite <- app_assoc in Hq.
      rewrite length_app in Hl. simpl in Hl.
      destruct (decide (q = done ++ [c0])) as [-> | Hne].
      * rewrite lookup_insert_eq. discriminate.
      * rewrite lookup_insert_ne by congruence. apply Hfree; [exact Hq | lia].
Qed.

End Makedirs.

(** X9: whenever the backup step returns, it has only added
    directories, and only on the way to the backup directory: every
    entry of the tree is as before or is a new, empty directory that is a
    component of the backup path; the backup directory exists afterwards
    when backups are enabled, and nothing is logged.  With backups
    disabled the step changes nothing. *)
Theorem backup_step_adds_directories_only ctx w enabled :
  config_get ctx "migration" "backup_enabled" = Val enabled ->
  (Yaml.truthy enabled = false -> create_backup_directory ctx w = Return tt w) /\
  (forall w',
      create_backup_directory ctx w = Return tt w' ->
      (forall k, fs w' !! k = fs w !! k \/
                 (fs w !! k = None /\ fs w' !! k = Some FS.Dir /\
                  k `prefix_of` resolve w (backup_dir ctx))) /\
      (Yaml.truthy enabled = true ->
       FS.lookup_node (fs w') (resolve w (backup_dir ctx)) = Some FS.Dir) /\
      log w' = log w /\ submitted w' = submitted w).
Proof.
  intros Hcfg. unfold create_backup_directory, bind, lift, fs_op. rewrite Hcfg.
  split.
  - intros ->. reflexivity.
  - intros w'. destruct (Yaml.truthy enabled).
    + destruct (FS.makedirs (fs w) (resolve w (backup_dir ctx))) as [f|] eqn:Hmk;
        [|discriminate].
      intros [= <-]. simpl. split; [|split; [|split; reflexivity]].
      * intros k. destruct (makedirs_from_adds _ _ _ _ Hmk k) as [? | (? & ? & ? & _)];
          [now left | right; auto].
      * intros _. now apply (makedirs_from_made _ _ [] _ Hmk).
    + intros [= <-]. split; [now left|]. split; [discriminate|]. split; reflexivity.
Qed.

Lemma backup_step_adds_directories_only_witness :
  let ctx := Scenario.context (Scenario.configuration "backup" ["*.java"] 3 true true) in
  let w := Scenario.world Scenario.tree in
  exists w',
    create_backup_directory ctx w = Return tt w' /\
    fs w' !! ["proj"; "pom.xml"] = Some (FS.File "<project/>") /\
    FS.lookup_node (fs w') ["proj"; "backup"] = Some FS.Dir.
Proof.
  intros ctx w. eexists. split; [vm_compute; reflexivity|].
  destruct (proj2 (backup_step_adds_directories_only ctx w (Yaml.Bool true)
                     ltac:(vm_compute; reflexivity)) _ ltac:(vm_compute; reflexivity))
    as (Hk & Hdir & _).
  split.
  - destruct (Hk ["proj"; "pom.xml"]) as [-> | (Hnone & _)];
      [vm_compute; reflexivity | vm_compute in Hnone; discriminate].
  - apply Hdir. reflexivity.
Defined.

(** X10: with backups enabled, the backup step returns exactly when no
    component of the backup path is a regular file.  When one is, it
    raises [FileExistsError] or [NotADirectoryError] for the backup path
    and leaves the world as it was. *)
Theorem backup_step_blocked_by_files ctx w enabled :
  config_get ctx "migration" "backup_enabled" = Val enabled ->
  Yaml.truthy enabled = true ->
  (~ blocked (fs w) (resolve w (backup_dir ctx)) ->
   exists w', create_backup_directory ctx w = Return tt w') /\
  (blocked (fs w) (resolve w (backup_dir ctx)) ->
   create_backup_directory ctx w =
     Raise (FileExistsError (FS.render (resolve w (backup_dir ctx)))) w \/
   create_backup_directory ctx w =
     Raise (NotADirectoryError (FS.render (resolve w (backup_dir ctx)))) w).
Proof.
  intros Hcfg Hen. unfold create_backup_directory, bind, lift, fs_op.
  rewrite Hcfg, Hen. unfold FS.makedirs. split.
  - intros Hfree.
    destruct (makedirs_from_free (resolve w (backup_dir ctx)) (fs w) []) as [f' ->].
    + intros q c Hq Hl Hfile. apply Hfree. exists q, c. split; [exact Hq|].
      destruct q; [simpl in Hl; lia | exact Hfile].
    + eauto.
  - intros (q & c & Hq & Hfile).
    destruct (makedirs_from_blocked (resolve w (backup_dir ctx)) (fs w) [] q c)
      as [-> | ->]; [| | |now left | now right].
    + destruct q; [discriminate | exact Hq].
    + destruct q; [discriminate | simpl; lia].
    + destruct q; [discriminate | exact Hfile].
Qed.

Lemma backup_step_blocked_by_files_witness :
  let ctx := Scenario.context (Scenario.configuration "backup" ["*.java"] 3 true true) in
  (exists w', create_backup_directory ctx (Scenario.world Scenario.tree) = Return tt w') /\
  create_backup_directory ctx (Scenario.world Trees.backup_is_a_file) =
    Raise (FileExistsError "/proj/backup") (Scenario.world Trees.backup_is_a_file).
Proof.
  intros ctx. split.
  - apply (proj1 (backup_step_blocked_by_files ctx (Scenario.world Scenario.tree)
                    (Yaml.Bool true) ltac:(vm_compute; reflexivity) ltac:(reflexivity))).
    intros (q & c & [k Hk] & Hfile). vm_compute in Hk.
    destruct q as [|a [|b [|? ?]]]; try discriminate.
    + injection Hk as <-. vm_compute in Hfile. discriminate.
    + injection Hk as <- <-. vm_compute in Hfile. discriminate.
  - destruct (proj2 (backup_step_blocked_by_files ctx (Scenario.world Trees.backup_is_a_file)
                       (Yaml.Bool true) ltac:(vm_compute; reflexivity) ltac:(reflexivity)))
      as [H | H].
    + exists ["proj"; "backup"], "old". split; [reflexivity | vm_compute; reflexivity].
    + exact H.
    + exfalso. vm_compute in H. discriminate.
Defined.

(** ** Edge cases of the dispatcher *)

Section Settings.

Variable glob : FS.t -> list string -> Path.t -> string -> result (list Path.t).
Variable path_match : Path.t -> string -> result bool.
Variables java xml jsp : list string -> Path.t -> FS.t -> FS.t * option exn.
Variable ctx : MigrationContext.

Lemma range_negative_step stop step :
  step < 0 -> 0 <= stop -> range 0 stop step = Val [].
Proof.
  intros Hstep Hstop. unfold range.
  replace (Z.eqb step 0) with false by (symmetry; apply Z.eqb_neq; lia).
  f_equal. destruct (Z.to_nat (Z.abs (stop - 0))); [reflexivity|].
  simpl. replace (0 <? step) with false by (symmetry; apply Z.ltb_ge; lia).
  replace (stop <? 0) with false by (symmetry; apply Z.ltb_ge; lia).
  reflexivity.
Qed.

(** X11: a batch size that is not positive does not process anything.
    With batch size 0 [process_files] raises the [ValueError] of
    [range] after discovery, and with a negative batch size it returns
    normally; in both cases no file is submitted and the world is as it
    was, however many files were discovered. *)
Theorem nonpositive_batch_size_processes_nothing w files B threads :
  discovers glob path_match ctx w files ->
  batch_settings ctx B threads ->
  0 < threads ->
  (B = 0 ->
   process_files glob path_match java xml jsp ctx w =
     Raise (ValueError "range() arg 3 must not be zero") w) /\
  (B < 0 ->
   process_files glob path_match java xml jsp ctx w = Return tt w).
Proof.
  intros (patterns & inc & exc & Hp & Hi & He & Hg) [Hb Ht] Hpos.
  unfold process_files, bind, lift, _gather_files.
  rewrite Hp, Hi, He, Hg, Hb, Ht. simpl.
  replace (threads <=? 0) with false by (symmetry; apply Z.leb_gt; lia).
  simpl. unfold batches. split.
  - intros ->. reflexivity.
  - intros HB. rewrite range_negative_step by lia. reflexivity.
Qed.

(** X12: a pool size that is not positive makes [process_files] raise
    [ValueError] when the pool is constructed, after discovery and before
    any file is submitted; the world is as it was. *)
Theorem nonpositive_pool_size_is_fatal w files batch_size threads :
  discovers glob path_match ctx w files ->
  config_get ctx "migration" "batch_size" = Val batch_size ->
  config_get ctx "migration" "parallel_threads" = Val (Yaml.Int threads) ->
  threads <= 0 ->
  process_files glob path_match java xml jsp ctx w =
    Raise (ValueError "max_workers must be greater than 0") w.
Proof.
  intros (patterns & inc & exc & Hp & Hi & He & Hg) Hb Ht Hneg.
  unfold process_files, bind, lift, _gather_files.
  rewrite Hp, Hi, He, Hg, Hb, Ht. simpl.
  replace (threads <=? 0) with true by (symmetry; apply Z.leb_le; lia).
  reflexivity.
Qed.

(** X13: what [_process_file] does with a recognised file is what its
    transformer does, plus the record of a failure.  When the transformer
    returns, the tree is the one it left and nothing is logged; when it
    raises, the same exception is raised again after one [ERROR] record
    naming the file, and the tree keeps whatever the transformer had
    changed before failing. *)
Theorem process_file_follows_transformer file_path w transform f r :
  transformer_for java xml jsp file_path = Some transform ->
  transform (cwd w) file_path (fs w) = (f, r) ->
  _process_file java xml jsp ctx file_path w =
    match r with
    | None => Return tt (set_fs f w)
    | Some e => Raise e (add_log "ERROR"
                           ("Error processing " +:+ Path.to_string file_path +:+
                            ": " +:+ str e)
                           (set_fs f w))
    end.
Proof.
  unfold transformer_for, _process_file, try_except, run_transformer.
  destruct (String.eqb (Path.suffix file_path) ".java").
  { intros [= <-] ->. now destruct r. }
  destruct (String.eqb (Path.suffix file_path) ".xml").
  { intros [= <-] ->. now destruct r. }
  destruct (String.eqb (Path.suffix file_path) ".jsp"); [|discriminate].
  intros [= <-] ->. now destruct r.
Qed.

End Settings.

Lemma nonpositive_batch_size_processes_nothing_witness :
  let w := Scenario.world Scenario.tree in
  process_files Glob.glob Glob.path_match Glob.pass Glob.pass Glob.pass
    (Scenario.context
       (Scenario.configuration "backup" ["*.java"; "*.xml"; "*.txt"] 0 false false)) w =
    Raise (ValueError "range() arg 3 must not be zero") w /\
  process_files Glob.glob Glob.path_match Glob.pass Glob.pass Glob.pass
    (Scenario.context
       (Scenario.configuration "backup" ["*.java"; "*.xml"; "*.txt"] (-3) false false)) w =
    Return tt w.
Proof.
  intros w. split.
  - apply (proj1 (nonpositive_batch_size_processes_nothing Glob.glob Glob.path_match
                    Glob.pass Glob.pass Glob.pass
                    (Scenario.context
                       (Scenario.configuration "backup" ["*.java"; "*.xml"; "*.txt"]
                                               0 false false))
                    w Scenario.discovered 0 2
                    ltac:(do 3 eexists; repeat split; vm_compute; reflexivity)
                    ltac:(split; vm_compute; reflexivity) ltac:(lia))).
    reflexivity.
  - apply (proj2 (nonpositive_batch_size_processes_nothing Glob.glob Glob.path_match
                    Glob.pass Glob.pass Glob.pass
                    (Scenario.context
                       (Scenario.configuration "backup" ["*.java"; "*.xml"; "*.txt"]
                                               (-3) false false))
                    w Scenario.discovered (-3) 2
                    ltac:(do 3 eexists; repeat split; vm_compute; reflexivity)
                    ltac:(split; vm_compute; reflexivity) ltac:(lia))).
    lia.
Defined.

Lemma nonpositive_pool_size_is_fatal_witness :
  let w := Scenario.world Scenario.tree in
  let cfg := Scenario.configuration "backup" ["*.java"; "*.xml"; "*.txt"] 3 false false in
  let ctx := mkContext
               (<["migration" := Scenario.ymap [("batch_size", Yaml.Int 3);
                                                ("parallel_threads", Yaml.Int 0)]]> cfg)
               Scenario.proj (Scenario.proj // "backup") in
  process_files Glob.glob Glob.path_match Glob.pass Glob.pass Glob.pass ctx w =
    Raise (ValueError "max_workers must be greater than 0") w.
Proof.
  intros w cfg ctx.
  apply (nonpositive_pool_size_is_fatal Glob.glob Glob.path_match
           Glob.pass Glob.pass Glob.pass ctx w Scenario.discovered (Yaml.Int 3) 0).
  - do 3 eexists. repeat split; vm_compute; reflexivity.
  - vm_compute. reflexivity.
  - vm_compute. reflexivity.
  - lia.
Defined.

Lemma process_file_follows_transformer_witness :
  let ctx := Scenario.context (Scenario.configuration "backup" ["*.java"] 3 false false) in
  let w := Scenario.world Scenario.tree in
  let file := Scenario.proj // "B.java" in
  let e := RuntimeError "cannot transform" in
  exists w',
    _process_file (rewrite_then_fail_on "B.java") Glob.pass Glob.pass ctx file w =
      Raise e w' /\
    fs w' !! ["proj"; "B.java"] = Some (FS.File "rewritten") /\
    log w' = [file_error file e].
Proof.
  intros ctx w file e. eexists. split.
  - apply (process_file_follows_transformer (rewrite_then_fail_on "B.java")
             Glob.pass Glob.pass ctx file w (rewrite_then_fail_on "B.java")
             (<[ ["proj"; "B.java"] := FS.File "rewritten" ]> Scenario.tree) (Some e));
      vm_compute; reflexivity.
  - split; vm_compute; reflexivity.
Defined.

(** ** Processing with the transformers as the module has them *)

Section Stubs.

Variable glob : FS.t -> list string -> Path.t -> string -> result (list Path.t).
Variable path_match : Path.t -> string -> result bool.
Variable ctx : MigrationContext.

Lemma set_fs_same w : set_fs (fs w) w = w.
Proof. now destruct w. Qed.

Lemma process_file_pass file_path w :
  _process_file Glob.pass Glob.pass Glob.pass ctx file_path w = Return tt w.
Proof.
  unfold _process_file, try_except, run_transformer, Glob.pass.
  repeat match goal with
         | |- context [if ?b then _ else _] => destruct b
         end; now rewrite ?set_fs_same.
Qed.

Lemma mapM_cons {A B} (f : A -> M B) x rest w :
  mapM f (x :: rest) w =
    match f x w with
    | Return y w1 =>
        match mapM f rest w1 with
        | Return ys w2 => Return (y :: ys) w2
        | Raise e w2 => Raise e w2
        end
    | Raise e w1 => Raise e w1
    end.
Proof. reflexivity. Qed.

Lemma forM_cons {A} (f : A -> M unit) x rest w :
  forM_ (x :: rest) f w =
    match f x w with
    | Return _ w1 => forM_ rest f w1
    | Raise e w1 => Raise e w1
    end.
Proof. reflexivity. Qed.

Lemma mapM_submit_pass batch : forall w,
  exists futures w',
    mapM (submit Glob.pass Glob.pass Glob.pass ctx) batch w = Return futures w' /\
    Forall (fun future => future = None) futures /\
    fs w' = fs w /\ log w' = log w /\
    submitted w' = submitted w ++ batch.
Proof.
  induction batch as [|file rest IH]; intros w.
  - exists [], w. simpl. unfold ret. now rewrite app_nil_r.
  - destruct (IH (add_submitted file w)) as (futures & w' & Hmap & Hnone & Hfs & Hlog & Hsub).
    exists (None :: futures), w'. rewrite mapM_cons. unfold submit at 1.
    rewrite process_file_pass, Hmap.
    repeat split; try assumption; [now constructor|].
    rewrite Hsub. simpl. now rewrite <- app_assoc.
Qed.

Lemma forM_collect_none futures w :
  Forall (fun future => future = None) futures ->
  forM_ futures collect w = Return tt w.
Proof.
  induction 1 as [|future rest -> _ IH]; [reflexivity|].
  rewrite forM_cons. exact IH.
Qed.

Lemma run_batches_pass bs : forall w,
  exists w',
    forM_ bs (run_batch Glob.pass Glob.pass Glob.pass ctx) w = Return tt w' /\
    fs w' = fs w /\ log w' = log w /\
    submitted w' = submitted w ++ concat bs.
Proof.
  induction bs as [|batch rest IH]; intros w.
  - exists w. simpl. unfold ret. now rewrite app_nil_r.
  - destruct (mapM_submit_pass batch w) as (futures & w1 & Hmap & Hnone & Hfs1 & Hlog1 & Hsub1).
    destruct (IH w1) as (w2 & Hrest & Hfs2 & Hlog2 & Hsub2).
    exists w2. rewrite forM_cons. unfold run_batch at 1, bind.
    rewrite Hmap, (forM_collect_none _ _ Hnone), Hrest.
    repeat split; try congruence.
    rewrite Hsub2, Hsub1. now rewrite <- app_assoc.
Qed.

(** X14: with the three transformer bodies as the module has them
    ([pass]), processing never changes the file tree and never logs
    anything: for a positive batch size and pool size [process_files]
    returns normally, and the only trace it leaves is that every
    discovered file was submitted. *)
Theorem shipped_transformers_change_nothing w files B threads :
  discovers glob path_match ctx w files ->
  batch_settings ctx B threads ->
  0 < B -> 0 < threads ->
  exists w',
    process_files glob path_match Glob.pass Glob.pass Glob.pass ctx w = Return tt w' /\
    fs w' = fs w /\
    log w' = log w /\
    submitted w' = submitted w ++ files.
Proof.
  intros Hd Hset HB Ht.
  destruct (batches_concat files B HB) as (bs & Hbs & Hcat).
  rewrite (process_files_dispatch glob path_match Glob.pass Glob.pass Glob.pass
             ctx w files B threads bs Hd Hset Ht Hbs).
  destruct (run_batches_pass bs w) as (w' & Hrun & Hfs & Hlog & Hsub).
  exists w'. rewrite Hcat in Hsub. auto.
Qed.

End Stubs.

Lemma shipped_transformers_change_nothing_witness :
  let ctx := Scenario.context
               (Scenario.configuration "backup" ["*.java"; "*.xml"; "*.txt"] 3 false false) in
  let w := Scenario.world Scenario.tree in
  exists w',
    process_files Glob.glob Glob.path_match Glob.pass Glob.pass Glob.pass ctx w =
      Return tt w' /\
    fs w' = Scenario.tree /\ log w' = [].
Proof.
  intros ctx w.
  destruct (shipped_transformers_change_nothing Glob.glob Glob.path_match ctx w
              Scenario.discovered 3 2)
    as (w' & Hrun & Hfs & Hlog & _).
  - do 3 eexists. repeat split; vm_compute; reflexivity.
  - split; vm_compute; reflexivity.
  - lia.
  - lia.
  - exists w'. auto.
Defined.
